(** * Telemetry recorder (record data/standalone-recorder_v2.py)

    A shallow embedding of the recorder: the snapshot parser
    [extract_mtconnect_values], one iteration of [fetch_loop] for one source
    ([poll_source]), the flusher [flush_buffer_to_disk] and the state file
    functions [state_save] / [state_load].

    Conventions.
    - Python [str] is Rocq [string] (ASCII text); [dict] is stdpp's [gmap].
    - Python [int] is [Z]; the [float] values produced by [try_number] are
      binary64 primitive floats.
    - The backoff delays are binary floats in the source that are only ever
      doubled and compared; both are exact on binary floats below overflow,
      so the delays are modelled by exact rationals [Q].
    - Exceptions are the values [Raise e] of the error type [res]; a
      [try: ... except Exception:] block is [catch_all].
    - The global [buffer] is one list object, mutated in place everywhere;
      a name bound to it ([list_name]) sees its current contents.
    - The language built-ins [int()], [float()], [ET.fromstring] and
      [os.path.join] are parameters of the development. *)

From Stdlib Require Import ZArith QArith Qminmax Lqa String Ascii List Lia Uint63 PrimFloat SpecFloat FloatOps.
From stdpp Require Import gmap strings list fin_maps.

Local Open Scope Z_scope.

(** ** Exceptions *)

Inductive exn :=
| ParseError | ValueError | TypeError | OverflowError | KeyError | OSError | RequestException.

Inductive res (A : Type) :=
| Ok (a : A)
| Raise (e : exn).
Arguments Ok {A} a.
Arguments Raise {A} e.

#[global] Instance res_bind : MBind res := λ A B k m,
  match m with Ok a => k a | Raise e => Raise e end.

(** [try: body / except Exception as e: handler] *)
Definition catch_all {A} (body : res A) (handler : exn → res A) : res A :=
  match body with Ok a => Ok a | Raise e => handler e end.

Definition of_option {A} (e : exn) (o : option A) : res A :=
  match o with Some a => Ok a | None => Raise e end.

#[global] Instance exn_eq_dec : EqDecision exn.
Proof. solve_decision. Defined.

#[global] Instance res_eq_dec {A} `{EqDecision A} : EqDecision (res A).
Proof. solve_decision. Defined.

(** ** Python values held by a sample *)

Inductive value :=
| VNone
| VInt (n : Z)
| VFloat (f : float)
| VStr (s : string).

(** The exact rational value [m * 2^e] of a finite float against an integer:
    Python compares [int] and [float] exactly. *)
Definition float_eq_int (f : float) (z : Z) : bool :=
  match Prim2SF f with
  | S754_zero _ => z =? 0
  | S754_finite s m e =>
      let v := if s then Z.neg m else Z.pos m in
      if 0 <=? e then v * 2 ^ e =? z else v =? z * 2 ^ (- e)
  | _ => false
  end.

(** [a == b] on values. *)
Definition py_eq (a b : value) : bool :=
  match a, b with
  | VNone, VNone => true
  | VInt x, VInt y => x =? y
  | VFloat x, VFloat y => PrimFloat.eqb x y
  | VInt x, VFloat y => float_eq_int y x
  | VFloat x, VInt y => float_eq_int x y
  | VStr x, VStr y => bool_decide (x = y)
  | _, _ => false
  end.

(** [a != b] *)
Definition py_ne (a b : value) : bool := negb (py_eq a b).

(** [x is None] *)
Definition is_None (v : value) : bool :=
  match v with VNone => true | _ => false end.

(** [d.get(k)]: the value, or [None] when the key is missing. *)
Definition dict_get (d : gmap string value) (k : string) : value :=
  default VNone (d !! k).

(** [d.get(k, dflt)] *)
Definition dict_get_default (d : gmap string value) (k : string) (dflt : value) : value :=
  default dflt (d !! k).



(** ** String operations of the source *)

(** [str.isspace] on ASCII: tab, line feed, vertical tab, form feed, carriage
    return, the four separators 28-31 and the space. *)
Definition py_isspace (c : ascii) : bool :=
  let n := N_of_ascii c in
  ((9 <=? n) && (n <=? 13) || (28 <=? n) && (n <=? 32))%N.

Fixpoint lstrip_with (p : ascii → bool) (s : string) : string :=
  match s with
  | String c s' => if p c then lstrip_with p s' else s
  | EmptyString => EmptyString
  end.

Definition strip_with (p : ascii → bool) (s : string) : string :=
  String.rev (lstrip_with p (String.rev (lstrip_with p s))).

(** [s.strip()] *)
Definition strip (s : string) : string := strip_with py_isspace s.

(** [s.strip(c)] for a one-character argument *)
Definition strip_char (c : ascii) (s : string) : string :=
  strip_with (λ a, bool_decide (a = c)) s.

(** [s.split(c)[0]]: the part before the first [c], the whole string when
    there is none. *)
Fixpoint split_first (c : ascii) (s : string) : string :=
  match s with
  | String a s' => if bool_decide (a = c) then EmptyString else String a (split_first c s')
  | EmptyString => EmptyString
  end.

(** [s.split(c)[-1]]: the part after the last [c]. *)
Definition split_last (c : ascii) (s : string) : string :=
  String.rev (split_first c (String.rev s)).

(** [s.startswith("{")] *)
Definition starts_with_brace (s : string) : bool :=
  match s with
  | String a _ => bool_decide (a = "{"%char)
  | EmptyString => false
  end.

(** [s[:n]] for [0 <= n] *)
Fixpoint str_take (n : nat) (s : string) : string :=
  match n, s with
  | S n', String a s' => String a (str_take n' s')
  | _, _ => EmptyString
  end.





(** ** The element tree returned by [ET.fromstring] *)

#[warnings="-register-all"]
Inductive Element :=
  Elem (tag : string) (attrib : gmap string string) (text : option string)
       (children : list Element).

Definition tag (e : Element) : string := let 'Elem t _ _ _ := e in t.
Definition attrib (e : Element) : gmap string string := let 'Elem _ a _ _ := e in a.
Definition text (e : Element) : option string := let 'Elem _ _ t _ := e in t.
Definition children (e : Element) : list Element := let 'Elem _ _ _ c := e in c.

(** [elem.iter()]: the element and all its descendants, in document order. *)
Fixpoint iter (e : Element) : list Element :=
  match e with
  | Elem _ _ _ cs => e :: flat_map iter cs
  end.

(** The elements selected by the path [.//t]: the descendants of [root] named
    [t], [root] itself excluded. *)
Definition descendants_named (root : Element) (t : string) : list Element :=
  filter (λ e, tag e = t) (tail (iter root)).

(** [root.find(".//t")] *)
Definition find (root : Element) (t : string) : option Element :=
  head (descendants_named root t).

(** [root.findall(".//t/*")] *)
Definition findall_children (root : Element) (t : string) : list Element :=
  flat_map children (descendants_named root t).

(** The function [q] of the source, as the tag it makes the path look up:
    [{uri}t] when the root tag carries a namespace, [t] otherwise. *)
Definition q (root : Element) (t : string) : string :=
  if starts_with_brace (tag root)
  then "{" +:+ strip_char "{" (split_first "}" (tag root)) +:+ "}" +:+ t
  else t.

(** [a or b] on optional strings: the empty string is falsy. *)
Definition truthy (o : option string) : option string :=
  match o with
  | Some EmptyString => None
  | _ => o
  end.

(** [el.attrib.get("name") or el.attrib.get("dataItemId") or el.tag.split("}")[-1]] *)
Definition field_key (el : Element) : string :=
  match truthy (attrib el !! "name") with
  | Some n => n
  | None =>
      match truthy (attrib el !! "dataItemId") with
      | Some d => d
      | None => split_last "}" (tag el)
      end
  end.

(** [el.text.strip() if el.text else None] *)
Definition field_text (el : Element) : option string :=
  match truthy (text el) with
  | Some t => Some (strip t)
  | None => None
  end.

(** ** The snapshot parser *)

(** The built-ins of the language and of its library the recorder calls. *)
Class Runtime := {
  (** [int(s)] on a string; [None] stands for [ValueError] *)
  py_int : string → option Z;
  (** [float(s)] on a string; [None] stands for [ValueError] *)
  py_float : string → option float;
  (** [ET.fromstring]: raises [ParseError] on text that is not well-formed XML *)
  fromstring : string → res Element;
  (** [os.path.join] on two components *)
  path_join : string → string → string
}.

Section Parser.
Context `{Runtime}.

(** [try_number(val)] *)
Definition try_number (val : option string) : value :=
  match val with
  | None => VNone
  | Some s =>
      match py_int s with
      | Some n => VInt n
      | None =>
          match py_float s with
          | Some f => VFloat f
          | None => VStr s
          end
      end
  end.

(** Lines 113-117: the header's [lastSequence], when there is one, is
    stored under ["sequence"]; [int(seq)] may raise [ValueError]. *)
Definition store_sequence (root : Element) (out : gmap string value)
  : res (gmap string value) :=
  match find root (q root "Header") with
  | None => Ok out
  | Some header =>
      match attrib header !! "lastSequence" with
      | None => Ok out
      | Some seq =>
          n ← of_option ValueError (py_int seq);
          Ok (<["sequence" := VInt n]> out)
      end
  end.

(** Lines 122-124: the body of the loop over the children of a section. *)
Definition store_item (out : gmap string value) (el : Element) : gmap string value :=
  <[field_key el := try_number (field_text el)]> out.

(** Lines 128-130: the body of the loop over the children of [Condition]. *)
Definition store_condition (out : gmap string value) (el : Element) : gmap string value :=
  <[field_key el := VStr (split_last "}" (tag el))]> out.

(** The children of the [Samples] sections followed by those of the
    [Events] sections: the elements the two passes of the loop at
    line 119 visit, in that order. *)
Definition data_items (root : Element) : list Element :=
  findall_children root (q root "Samples") ++ findall_children root (q root "Events").

(** The statements inside the [try] once the text is parsed. *)
Definition extract_body (root : Element) (include_condition : bool)
  : res (gmap string value) :=
  out ← store_sequence root ∅;
  let out :=
    foldl (λ out section, foldl store_item out (findall_children root (q root section)))
          out ["Samples"; "Events"] in
  let out :=
    if include_condition
    then foldl store_condition out (findall_children root (q root "Condition"))
    else out in
  Ok out.

(** [extract_mtconnect_values(xml_text, include_condition)].  The only
    statements that can raise are [ET.fromstring] and [int(seq)]; both run
    before the first assignment to [out], so the handler returns the [out]
    it finds: the empty dict. *)
Definition extract_mtconnect_values (xml_text : string) (include_condition : bool)
  : res (gmap string value) :=
  catch_all (root ← fromstring xml_text; extract_body root include_condition)
            (λ _, Ok ∅).

(** The mapping the parser returns, as a plain function. *)
Definition parsed_fields (xml_text : string) (include_condition : bool)
  : gmap string value :=
  match extract_mtconnect_values xml_text include_condition with
  | Ok out => out
  | Raise _ => ∅
  end.

End Parser.

(** ** Configuration and global state *)

Record Config := {
  SOURCES : list (string * string);
  DATA_DIR : string;
  MAX_BUFFER_SIZE : Z;
  INCLUDE_CONDITION : bool;
  BACKOFF_INITIAL : Q;
  BACKOFF_MAX : Q
}.

(** The constants of lines 15-31. *)
Definition recorder_config : Config := {|
  SOURCES := [("QuickTurn", "http://192.168.200.249:5000/current");
              ("IG500", "http://192.168.200.249:5000/current");
              ("VTC", "http://192.168.200.252:5000/current")];
  DATA_DIR := "data";
  MAX_BUFFER_SIZE := 50000;
  INCLUDE_CONDITION := false;
  BACKOFF_INITIAL := 1 # 2;
  BACKOFF_MAX := 8
|}.

(** The globals [buffer], [last_sequence] and [per_source_backoff]. *)
Record Recorder := {
  buffer : list (gmap string value);
  last_sequence : gmap string value;
  per_source_backoff : gmap string Q
}.

(** What an iteration does besides updating the globals. *)
Inductive event :=
| Slept (seconds : Q)
| BufferFull (name : string) (dropped : Z).

(** The outcome of [session.get] followed by [raise_for_status]: an exception,
    or the response text. *)
Inductive response :=
| Failed (e : exn)
| Fetched (r_text : string).

(** [min(a, b)] returns [b] only when [b < a]. *)
Definition py_min (a b : Q) : Q := if Qlt_le_dec b a then b else a.

(** [n or 1] on integers *)
Definition or_one (n : Z) : Z := if n =? 0 then 1 else n.

Section Poller.
Context `{Runtime} (cfg : Config).

(** The globals at process start (lines 44-46). *)
Definition initial_recorder : Recorder := {|
  buffer := [];
  last_sequence := ∅;
  per_source_backoff := list_to_map ((λ s, (s.1, BACKOFF_INITIAL cfg)) <$> SOURCES cfg)
|}.

(** Lines 161-167: the append under [buffer_lock]. *)
Definition buffer_append (name : string) (buf : list (gmap string value))
    (parsed : gmap string value) : list (gmap string value) * list event :=
  if MAX_BUFFER_SIZE cfg <=? Z.of_nat (length buf) then
    let drop := or_one (Z.of_nat (length buf) / 10) in
    (skipn (Z.to_nat drop) buf ++ [parsed], [BufferFull name drop])
  else (buf ++ [parsed], []).

(** The condition of line 158. *)
Definition is_new (seq : value) (table : gmap string value) (name : string) : bool :=
  is_None seq || py_ne seq (dict_get table name).

(** Lines 153-169: what the loop does with a parsed snapshot.  The key
    ["sequence"] is present when line 168 reads it: it was either parsed or
    stored at line 156. *)
Definition record_parsed (ts name : string) (parsed : gmap string value)
    (st : Recorder) : Recorder * list event :=
  let seq := dict_get parsed "sequence" in
  let parsed :=
    if is_None seq
    then <["sequence" := dict_get_default (last_sequence st) name (VInt (-1))]> parsed
    else parsed in
  if is_new seq (last_sequence st) name then
    let parsed := <["timestamp" := VStr ts]> parsed in
    let parsed := <["machine" := VStr name]> parsed in
    let '(buf, evs) := buffer_append name (buffer st) parsed in
    ({| buffer := buf;
        last_sequence := <[name := dict_get parsed "sequence"]> (last_sequence st);
        per_source_backoff := <[name := BACKOFF_INITIAL cfg]> (per_source_backoff st) |},
     evs)
  else (st, []).

(** Lines 147-169: the body of the [try].  A fetch error is raised before
    any global is touched. *)
Definition poll_try (ts name : string) (r : response) (st : Recorder)
  : res (Recorder * list event) :=
  match r with
  | Failed e => Raise e
  | Fetched r_text =>
      let body := strip r_text in
      if bool_decide (body = "") then Ok (st, [])
      else
        parsed ← extract_mtconnect_values body (INCLUDE_CONDITION cfg);
        Ok (record_parsed ts name parsed st)
  end.

(** Lines 170-174: the handler.  [per_source_backoff[name]] raises
    [KeyError] for a name without an entry. *)
Definition on_fetch_error (name : string) (st : Recorder)
  : res (Recorder * list event) :=
  cur ← of_option KeyError (per_source_backoff st !! name);
  let delay := py_min (cur * 2)%Q (BACKOFF_MAX cfg) in
  Ok ({| buffer := buffer st;
         last_sequence := last_sequence st;
         per_source_backoff := <[name := delay]> (per_source_backoff st) |},
      [Slept delay]).

(** One iteration of the loop over [SOURCES] at line 143, for the source
    [name], the cycle's timestamp [ts] and the outcome [r] of its request. *)
Definition poll_source (ts name : string) (r : response) (st : Recorder)
  : res (Recorder * list event) :=
  catch_all (poll_try ts name r st) (λ _, on_fetch_error name st).

(** Successive iterations, as long as none raises. *)
Fixpoint poll_many (polls : list (string * string * response)) (st : Recorder)
  : res (Recorder * list event) :=
  match polls with
  | [] => Ok (st, [])
  | (ts, name, r) :: rest =>
      '(st1, evs1) ← poll_source ts name r st;
      '(st2, evs2) ← poll_many rest st1;
      Ok (st2, evs1 ++ evs2)
  end.

End Poller.

(** ** The disk: log files, directories and the state file *)

(** A JSON document, as [json.load] reads it and [json.dump] writes it. *)
#[warnings="-register-all"]
Inductive json :=
| JNull
| JBool (b : bool)
| JInt (n : Z)
| JFloat (f : float)
| JStr (s : string)
| JArr (items : list json)
| JObj (members : list (string * json)).

(** [STATE_FILE]: absent, present with text [json.load] raises on, or a
    document. *)
Inductive state_content :=
| Missing
| Unreadable
| Document (doc : json).

(** A log file is the list of its lines; a line is the sample that
    [json.dumps] serialized on it. *)
Record Disk := {
  logs : gmap string (list (gmap string value));
  dirs : gset string;
  state_file : state_content
}.

(** What the operating system answers during one flush: whether the
    [os.makedirs] and the append for the entry at a position of [to_write]
    succeed, whether the state file can be written and replaced, and the
    clock. *)
Record FlushEnv := {
  makedirs_ok : nat → bool;
  append_ok : nat → bool;
  state_write_ok : bool;
  now_iso_utc : string;
  today : string
}.

(** [json.dump(last_sequence)]: an object with one member per source. *)
Definition dump_value (v : value) : json :=
  match v with
  | VNone => JNull
  | VInt n => JInt n
  | VFloat f => JFloat f
  | VStr s => JStr s
  end.

Definition dump_table (table : gmap string value) : json :=
  JObj (map_to_list (dump_value <$> table)).

(** The dict [json.load] builds from an object: a repeated key keeps its
    last value. *)
Definition load_object (members : list (string * json)) : gmap string json :=
  list_to_map (reverse members).

(** [int(f)] on a float truncates toward zero; it raises on infinities and
    NaN. *)
Definition float_trunc (f : float) : option Z :=
  match Prim2SF f with
  | S754_zero _ => Some 0
  | S754_finite s m e =>
      let v := if s then Z.neg m else Z.pos m in
      Some (if 0 <=? e then v * 2 ^ e else Z.quot v (2 ^ (- e)))
  | _ => None
  end.

(** [ensure_dir(path)], when [os.makedirs] succeeds. *)
Definition ensure_dir (path : string) (disk : Disk) : Disk :=
  {| logs := logs disk; dirs := {[path]} ∪ dirs disk; state_file := state_file disk |}.

(** [open(path, "a")] followed by one [write]. *)
Definition append_line (path : string) (entry : gmap string value) (disk : Disk) : Disk :=
  {| logs := <[path := default [] (logs disk !! path) ++ [entry]]> (logs disk);
     dirs := dirs disk;
     state_file := state_file disk |}.

Definition with_buffer (buf : list (gmap string value)) (st : Recorder) : Recorder :=
  {| buffer := buf;
     last_sequence := last_sequence st;
     per_source_backoff := per_source_backoff st |}.

Definition with_last_sequence (table : gmap string value) (st : Recorder) : Recorder :=
  {| buffer := buffer st;
     last_sequence := table;
     per_source_backoff := per_source_backoff st |}.

(** A name bound to a list: the list object the global [buffer] names, or
    a list no other name is bound to. *)
Inductive list_name :=
| TheBuffer
| Own (items : list (gmap string value)).

(** The list a name stands for, given the globals. *)
Definition contents (st : Recorder) (l : list_name) : list (gmap string value) :=
  match l with
  | TheBuffer => buffer st
  | Own items => items
  end.

Section Flusher.
Context `{Runtime} (cfg : Config).

(** [int(v)] on a value read from the state file; [None] stands for the
    [ValueError], [TypeError] or [OverflowError] it raises. *)
Definition json_int (v : json) : option Z :=
  match v with
  | JInt n => Some n
  | JBool b => Some (if b then 1 else 0)
  | JFloat f => float_trunc f
  | JStr s => py_int s
  | JNull | JArr _ | JObj _ => None
  end.

(** [{k: int(v) for k, v in data.items()}]: raises as soon as one [int(v)]
    does. *)
Definition int_table (data : gmap string json) : option (gmap string Z) :=
  if bool_decide (map_Forall (λ _ v, is_Some (json_int v)) data)
  then Some (omap json_int data)
  else None.

(** [state_load()]: every exception is caught and leaves [last_sequence]
    as it was. *)
Definition state_load (st : Recorder) (disk : Disk) : Recorder :=
  match state_file disk with
  | Missing => st
  | Unreadable => st
  | Document (JObj members) =>
      match int_table (load_object members) with
      | Some table => with_last_sequence ((VInt <$> table) ∪ last_sequence st) st
      | None => st
      end
  | Document _ => st
  end.

(** [state_save()]: the temporary file replaces [STATE_FILE] in one step;
    an exception on the way is caught and leaves [STATE_FILE] as it was. *)
Definition state_save (env : FlushEnv) (st : Recorder) (disk : Disk) : Disk :=
  if state_write_ok env
  then {| logs := logs disk; dirs := dirs disk;
          state_file := Document (dump_table (last_sequence st)) |}
  else disk.

(** Line 195 and 202: [os.path.join] raises [TypeError] on a component
    that is not a string. *)
Definition entry_dir (entry : gmap string value) : res string :=
  match dict_get_default entry "machine" (VStr "UNKNOWN") with
  | VStr machine => Ok (path_join (DATA_DIR cfg) machine)
  | _ => Raise TypeError
  end.

(** Lines 196-200: the slice raises [TypeError] on a timestamp that is
    not a string, and the handler takes today's date. *)
Definition entry_day (env : FlushEnv) (entry : gmap string value) : string :=
  match dict_get_default entry "timestamp" (VStr (now_iso_utc env)) with
  | VStr ts_str => str_take 10 ts_str
  | _ => today env
  end.

(** The path of the log file of an entry (line 204). *)
Definition entry_file (env : FlushEnv) (entry : gmap string value) : res string :=
  dir_path ← entry_dir entry;
  Ok (path_join dir_path (entry_day env entry +:+ ".jsonl")).

(** Lines 194-211: the loop over [to_write], from position [i] on, with
    the count [written] so far.  The disk is returned as the loop leaves
    it, also when the loop stops on an exception: [os.path.join] and
    [ensure_dir] are outside the [try] of lines 206-211. *)
Fixpoint write_entries (env : FlushEnv) (i : nat) (to_write : list (gmap string value))
    (written : Z) (disk : Disk) : res Z * Disk :=
  match to_write with
  | [] => (Ok written, disk)
  | entry :: rest =>
      match entry_dir entry with
      | Raise e => (Raise e, disk)
      | Ok dir_path =>
          if makedirs_ok env i then
            let disk := ensure_dir dir_path disk in
            let file_path := path_join dir_path (entry_day env entry +:+ ".jsonl") in
            if append_ok env i
            then write_entries env (S i) rest (written + 1) (append_line file_path entry disk)
            else write_entries env (S i) rest written disk
          else (Raise OSError, disk)
      end
  end.

(** Lines 192-216: the loop over the entries of [to_write], then the state
    save. *)
Definition write_and_persist (env : FlushEnv) (to_write : list (gmap string value))
    (st : Recorder) (disk : Disk) : res unit * Recorder * Disk :=
  match write_entries env 0 to_write 0 disk with
  | (Raise e, disk) => (Raise e, st, disk)
  | (Ok written, disk) =>
      if written =? 0 then (Ok (), st, disk)
      else (Ok (), st, state_save env st disk)
  end.

(** [flush_buffer_to_disk()].  Line 190 is
    [to_write, buffer[:] = buffer, []]: the right-hand side is evaluated
    first, to the list object [buffer] and a new empty list; [to_write] is
    then bound to the list object [buffer] itself, not to a copy of it, and
    the slice assignment empties that same object in place.  The loop of
    line 194 visits what [to_write] names when it runs. *)
Definition flush_buffer_to_disk (env : FlushEnv) (st : Recorder) (disk : Disk)
  : res unit * Recorder * Disk :=
  match buffer st with
  | [] => (Ok (), st, disk)
  | _ :: _ =>
      let to_write := TheBuffer in
      let st := with_buffer [] st in
      write_and_persist env (contents st to_write) st disk
  end.

(** The globals when the threads start: fresh, then [state_load()]
    (line 233 of [run()]). *)
Definition startup (disk : Disk) : Recorder :=
  state_load (initial_recorder cfg) disk.

End Flusher.

(** ** A runtime for the examples

    [int()] on ASCII text, [float()] on short decimal numerals,
    [posixpath.join], and [ET.fromstring] on the documents below. *)

Definition digit_of (c : ascii) : option Z :=
  let n := N_of_ascii c in
  if ((48 <=? n) && (n <=? 57))%N then Some (Z.of_N n - 48) else None.

(** Digits, single underscores allowed between two of them. *)
Fixpoint digits_from (acc : Z) (after_digit : bool) (s : string) : option Z :=
  match s with
  | EmptyString => if after_digit then Some acc else None
  | String c s' =>
      match digit_of c with
      | Some d => digits_from (acc * 10 + d) true s'
      | None =>
          if bool_decide (c = "_"%char) && after_digit
          then digits_from acc false s'
          else None
      end
  end.

Definition ascii_int (s : string) : option Z :=
  match strip s with
  | String "+" r => digits_from 0 false r
  | String "-" r => Z.opp <$> digits_from 0 false r
  | r => digits_from 0 false r
  end.

(** [whole.frac] with at most fifteen digits: numerator and power of ten are
    exact floats, and the division rounds once. *)
Definition ascii_float (s : string) : option float :=
  let t := strip s in
  let whole := split_first "." t in
  let frac := split_last "." t in
  if bool_decide (t = whole +:+ "." +:+ frac) then
    match digits_from 0 false (whole +:+ frac) with
    | Some n =>
        if (String.length whole + String.length frac <=? 15)%nat
        then Some (PrimFloat.of_uint63 (Uint63.of_Z n)
                   / PrimFloat.of_uint63 (Uint63.of_Z (10 ^ Z.of_nat (String.length frac))))%float
        else None
    | None => None
    end
  else None.

(** [posixpath.join(a, b)] *)
Definition posix_join (a b : string) : string :=
  match b with
  | String "/" _ => b
  | _ =>
      match String.rev a with
      | EmptyString => b
      | String "/" _ => a +:+ b
      | _ => a +:+ "/" +:+ b
      end
  end.

Definition ns_tag (t : string) : string := "{urn:m}" +:+ t.

Definition leaf (t : string) (attrs : list (string * string)) (txt : option string) : Element :=
  Elem t (list_to_map attrs) txt [].

(** A stream document under a namespaced root; [header_attrs] are the
    attributes of its header. *)
Definition streams_text (header_attrs : string) : string :=
  "<MTConnectStreams xmlns='urn:m'><Header" +:+ header_attrs +:+ "/><Streams>"
  +:+ "<Samples><Position dataItemId='x1' name='Xpos'> 12.5 </Position>"
  +:+ "<Load dataItemId='l1'>7</Load></Samples>"
  +:+ "<Events><Execution>ACTIVE</Execution><Program/>"
  +:+ "<Mode name='' dataItemId='m1'>AUTO</Mode><Block>  G01 X10  </Block></Events>"
  +:+ "</Streams></MTConnectStreams>".

Definition streams_tree (header_attrs : list (string * string)) : Element :=
  Elem (ns_tag "MTConnectStreams") ∅ None
    [ leaf (ns_tag "Header") header_attrs None;
      Elem (ns_tag "Streams") ∅ None
        [ Elem (ns_tag "Samples") ∅ None
            [ leaf (ns_tag "Position") [("dataItemId", "x1"); ("name", "Xpos")] (Some " 12.5 ");
              leaf (ns_tag "Load") [("dataItemId", "l1")] (Some "7") ];
          Elem (ns_tag "Events") ∅ None
            [ leaf (ns_tag "Execution") [] (Some "ACTIVE");
              leaf (ns_tag "Program") [] None;
              leaf (ns_tag "Mode") [("name", ""); ("dataItemId", "m1")] (Some "AUTO");
              leaf (ns_tag "Block") [] (Some "  G01 X10  ") ] ] ].

Definition snapshot_text (seq : string) : string :=
  streams_text (" lastSequence='" +:+ seq +:+ "'").

Definition snapshot_tree (seq : string) : Element :=
  streams_tree [("lastSequence", seq)].

(** A well-formed document whose root is not a stream document. *)
Definition other_root_text : string :=
  "<Report><Samples><Load>7</Load></Samples></Report>".

Definition other_root_tree : Element :=
  Elem "Report" ∅ None [ Elem "Samples" ∅ None [ leaf "Load" [] (Some "7") ] ].

Definition example_documents : list (string * Element) :=
  [ (snapshot_text "99", snapshot_tree "99");
    (snapshot_text "100", snapshot_tree "100");
    (snapshot_text "101", snapshot_tree "101");
    (snapshot_text "42", snapshot_tree "42");
    (snapshot_text "43", snapshot_tree "43");
    (snapshot_text "soon", snapshot_tree "soon");
    (streams_text "", streams_tree []);
    (other_root_text, other_root_tree) ].

Fixpoint lookup_document (xml_text : string) (docs : list (string * Element))
  : option Element :=
  match docs with
  | [] => None
  | (t, e) :: rest => if bool_decide (t = xml_text) then Some e else lookup_document xml_text rest
  end.

Definition example_fromstring (xml_text : string) : res Element :=
  of_option ParseError (lookup_document xml_text example_documents).

Definition example_runtime : Runtime := {|
  py_int := ascii_int;
  py_float := ascii_float;
  fromstring := example_fromstring;
  path_join := posix_join
|}.

(** A configuration with one source and a buffer bound of 3. *)
Definition small_config : Config := {|
  SOURCES := [("A", "http://a/current")];
  DATA_DIR := "data";
  MAX_BUFFER_SIZE := 3;
  INCLUDE_CONDITION := false;
  BACKOFF_INITIAL := 1 # 2;
  BACKOFF_MAX := 8
|}.

(** A sample that carries only a sequence. *)
Definition bare_sample (n : Z) : gmap string value := {["sequence" := VInt n]}.

(** The sample lines 159-160 make of a parsed mapping. *)
Definition stamped (ts name : string) (parsed : gmap string value) : gmap string value :=
  <["machine" := VStr name]> (<["timestamp" := VStr ts]> parsed).

(** A recorder with an empty buffer, the given table of last accepted
    sequences and the initial delays of [cfg]. *)
Definition recorder_with (cfg : Config) (table : gmap string value) : Recorder :=
  with_last_sequence table (initial_recorder cfg).

(** Three requests of the source [name] in a row that all fail. *)
Definition three_failures (name : string) : list (string * string * response) :=
  [ ("2024-05-17T09:30:00.000000+00:00", name, Failed RequestException);
    ("2024-05-17T09:30:01.200000+00:00", name, Failed RequestException);
    ("2024-05-17T09:30:03.400000+00:00", name, Failed RequestException) ].

(** The elements of the example document, by their place in it. *)
Definition position_element : Element :=
  leaf (ns_tag "Position") [("dataItemId", "x1"); ("name", "Xpos")] (Some " 12.5 ").

Definition block_element : Element :=
  leaf (ns_tag "Block") [] (Some "  G01 X10  ").

(** A response cut off in the middle of the root tag. *)
Definition truncated_text : string := "<MTConnectStreams xmlns='urn:m'><Header lastSeq".

(** ** Notions used to state the properties of a flush *)

(** A sample as the fetch loop makes them: machine and timestamp are
    strings. *)
Definition is_sample (entry : gmap string value) : Prop :=
  ∃ machine ts, entry !! "machine" = Some (VStr machine)
                ∧ entry !! "timestamp" = Some (VStr ts).

(** The lines of a log file; none when the file does not exist. *)
Definition lines_of (disk : Disk) (path : string) : list (gmap string value) :=
  default [] (logs disk !! path).

(** The entries of [to_write], read from position [i] on, whose append
    succeeds. *)
Fixpoint written_entries (env : FlushEnv) (i : nat) (to_write : list (gmap string value))
  : list (gmap string value) :=
  match to_write with
  | [] => []
  | entry :: rest =>
      if append_ok env i
      then entry :: written_entries env (S i) rest
      else written_entries env (S i) rest
  end.

Definition empty_disk : Disk := {| logs := ∅; dirs := ∅; state_file := Missing |}.

(** Two samples of one cycle, for two machines. *)
Definition sample_of (name : string) (seq : Z) : gmap string value :=
  stamped "2024-05-17T09:30:00.123456+00:00" name (bare_sample seq).

Definition two_samples : list (gmap string value) :=
  [sample_of "QuickTurn" 101; sample_of "VTC" 7].

Definition recorder_holding (entries : list (gmap string value)) : Recorder :=
  with_buffer entries
    (recorder_with recorder_config {["QuickTurn" := VInt 101; "VTC" := VInt 7]}).

(** An operating system on which everything succeeds, except the appends
    and the directory creations at the given positions. *)
Definition failing_env (no_dir no_append : list nat) : FlushEnv := {|
  makedirs_ok := λ i, bool_decide (i ∉ no_dir);
  append_ok := λ i, bool_decide (i ∉ no_append);
  state_write_ok := true;
  now_iso_utc := "2024-05-17T09:30:01.000000+00:00";
  today := "2024-05-17"
|}.

(** ** Notions used to state further properties *)

(** A text of white-space characters only. *)
Fixpoint all_space (s : string) : bool :=
  match s with
  | EmptyString => true
  | String c s' => py_isspace c && all_space s'
  end.

(** A text in which the character [c] does not occur. *)
Fixpoint lacks (c : ascii) (s : string) : bool :=
  match s with
  | EmptyString => true
  | String a s' => negb (bool_decide (a = c)) && lacks c s'
  end.

(** The names of the configured sources. *)
Definition source_names (cfg : Config) : list string := (SOURCES cfg).*1.

(** The mandatory fields of a sample: machine and timestamp, both strings,
    and a sequence. *)
Definition has_mandatory_fields (entry : gmap string value) : Prop :=
  is_sample entry ∧ is_Some (entry !! "sequence").

(** The children of the [Condition] elements, visited when the flag is
    set. *)
Definition condition_items (root : Element) : list Element :=
  findall_children root (q root "Condition").

(** A document with a [Condition] section, and a runtime that parses
    it. *)
Definition condition_text : string :=
  "<MTConnectStreams xmlns='urn:m'><Header lastSequence='7'/>"
  +:+ "<Samples><Load name='load'>7</Load></Samples>"
  +:+ "<Condition><Normal dataItemId='servo'/><Fault name='load'>overload</Fault></Condition>"
  +:+ "</MTConnectStreams>".

Definition condition_tree : Element :=
  Elem (ns_tag "MTConnectStreams") ∅ None
    [ leaf (ns_tag "Header") [("lastSequence", "7")] None;
      Elem (ns_tag "Samples") ∅ None [ leaf (ns_tag "Load") [("name", "load")] (Some "7") ];
      Elem (ns_tag "Condition") ∅ None
        [ leaf (ns_tag "Normal") [("dataItemId", "servo")] None;
          leaf (ns_tag "Fault") [("name", "load")] (Some "overload") ] ].

Definition condition_runtime : Runtime := {|
  py_int := ascii_int;
  py_float := ascii_float;
  fromstring := λ xml_text,
    if bool_decide (xml_text = condition_text) then Ok condition_tree else Raise ParseError;
  path_join := posix_join
|}.

(** A disk whose state file holds the given document. *)
Definition disk_with_state (doc : json) : Disk :=
  {| logs := ∅; dirs := ∅; state_file := Document doc |}.

(** One pass of the loop at line 143 while [stop_event] is not set: every
    source of [SOURCES] in turn, with the timestamp [ts] taken at line 142
    and the outcome [fetch name url] of the request to each. *)
Definition poll_cycle `{Runtime} (cfg : Config) (ts : string)
    (fetch : string → string → response) (st : Recorder) : res (Recorder * list event) :=
  poll_many cfg ((λ s, (ts, s.1, fetch s.1 s.2)) <$> SOURCES cfg) st.

(** The requests of the example cycle: IG500 answers with sequence 101,
    the other sources fail. *)
Definition example_fetch (name url : string) : response :=
  if bool_decide (name = "IG500") then Fetched (snapshot_text "101")
  else Failed RequestException.

(** * Properties *)

(** ** Evaluation on the example documents *)

Example strip_ex : strip "  ACTIVE   " = "ACTIVE".
Proof. reflexivity. Qed.

Example split_last_ex :
  split_last "}" "{urn:mtconnect.org:MTConnectStreams:1.3}Execution" = "Execution".
Proof. reflexivity. Qed.

Example namespace_ex :
  q (snapshot_tree "101") "Header" = "{urn:m}Header".
Proof. reflexivity. Qed.

Example str_take_ex : str_take 10 "2024-05-17T09:30:00.123456+00:00" = "2024-05-17".
Proof. reflexivity. Qed.

Example py_eq_int_float : py_eq (VInt 100) (VFloat 100%float) = true.
Proof. reflexivity. Qed.

Example ascii_int_ex :
  (ascii_int " -1_000 ", ascii_int "12.5", ascii_int "", ascii_int "007")
  = (Some (-1000), None, None, Some 7).
Proof. reflexivity. Qed.

Example parsed_fields_ex :
  @parsed_fields example_runtime (snapshot_text "101") false
  = list_to_map
      [("sequence", VInt 101); ("Xpos", VFloat 12.5%float); ("l1", VInt 7);
       ("Execution", VStr "ACTIVE"); ("Program", VNone); ("m1", VStr "AUTO");
       ("Block", VStr "G01 X10")].
Proof. vm_compute. reflexivity. Qed.

(** ** The parser returns *)

Section ParserFacts.
Context `{Runtime}.

Lemma extract_mtconnect_values_Ok xml_text include_condition :
  extract_mtconnect_values xml_text include_condition
  = Ok (parsed_fields xml_text include_condition).
Proof.
  unfold parsed_fields, extract_mtconnect_values, catch_all.
  destruct (fromstring xml_text) as [root|e]; simpl; [|done].
  destruct (extract_body root include_condition); done.
Qed.

End ParserFacts.

(** ** The buffer *)

Section BufferFacts.
Context `{Runtime} (cfg : Config).

Lemma or_one_pos n : 0 ≤ n → 1 ≤ or_one n.
Proof. unfold or_one. destruct (Z.eqb_spec n 0); lia. Qed.

Lemma or_one_tenth (len : nat) :
  or_one (Z.of_nat len / 10) = Z.max 1 (Z.of_nat len / 10).
Proof.
  unfold or_one.
  assert (0 ≤ Z.of_nat len / 10) by (apply Z.div_pos; lia).
  destruct (Z.eqb_spec (Z.of_nat len / 10) 0); lia.
Qed.

(** The append keeps a suffix of the old buffer and puts the new entry
    last. *)
Lemma buffer_append_suffix name buf parsed :
  ∃ kept, kept `suffix_of` buf ∧ (buffer_append cfg name buf parsed).1 = kept ++ [parsed].
Proof.
  unfold buffer_append.
  destruct (MAX_BUFFER_SIZE cfg <=? Z.of_nat (length buf)); simpl.
  - eexists; split; [apply suffix_drop | done].
  - by exists buf.
Qed.

Lemma buffer_append_length name buf parsed :
  1 ≤ MAX_BUFFER_SIZE cfg →
  Z.of_nat (length buf) ≤ MAX_BUFFER_SIZE cfg →
  Z.of_nat (length (buffer_append cfg name buf parsed).1) ≤ MAX_BUFFER_SIZE cfg.
Proof.
  intros Hmax Hlen. unfold buffer_append.
  destruct (Z.leb_spec (MAX_BUFFER_SIZE cfg) (Z.of_nat (length buf))); simpl;
    rewrite length_app, ?length_drop; simpl.
  - pose proof (or_one_pos (Z.of_nat (length buf) / 10)
                  ltac:(apply Z.div_pos; lia)). lia.
  - lia.
Qed.

Lemma record_parsed_length ts name parsed st :
  1 ≤ MAX_BUFFER_SIZE cfg →
  Z.of_nat (length (buffer st)) ≤ MAX_BUFFER_SIZE cfg →
  Z.of_nat (length (buffer (record_parsed cfg ts name parsed st).1)) ≤ MAX_BUFFER_SIZE cfg.
Proof.
  intros Hmax Hlen. unfold record_parsed.
  destruct (is_new _ _ _); [|done].
  match goal with |- context [buffer_append cfg ?n ?b ?p] =>
    pose proof (buffer_append_length n b p Hmax Hlen);
    destruct (buffer_append cfg n b p) end.
  done.
Qed.

Lemma poll_source_length ts name r st st' evs :
  1 ≤ MAX_BUFFER_SIZE cfg →
  Z.of_nat (length (buffer st)) ≤ MAX_BUFFER_SIZE cfg →
  poll_source cfg ts name r st = Ok (st', evs) →
  Z.of_nat (length (buffer st')) ≤ MAX_BUFFER_SIZE cfg.
Proof.
  intros Hmax Hlen. unfold poll_source, poll_try, on_fetch_error, catch_all.
  destruct r as [e|r_text].
  - destruct (per_source_backoff st !! name); simpl; [|done].
    intros [= <- <-]. done.
  - case_bool_decide.
    + intros [= <- <-]. done.
    + rewrite extract_mtconnect_values_Ok. simpl.
      intros [= Hst]. pose proof (record_parsed_length ts name
        (parsed_fields (strip r_text) (INCLUDE_CONDITION cfg)) st Hmax Hlen) as Hl.
      by rewrite Hst in Hl.
Qed.

Lemma poll_many_length polls : ∀ st st' evs,
  1 ≤ MAX_BUFFER_SIZE cfg →
  Z.of_nat (length (buffer st)) ≤ MAX_BUFFER_SIZE cfg →
  poll_many cfg polls st = Ok (st', evs) →
  Z.of_nat (length (buffer st')) ≤ MAX_BUFFER_SIZE cfg.
Proof.
  induction polls as [|[[ts name] r] rest IH]; intros st st' evs Hmax Hlen; simpl.
  - by intros [= <- <-].
  - destruct (poll_source cfg ts name r st) as [[st1 evs1]|] eqn:Hstep; simpl; [|done].
    destruct (poll_many cfg rest st1) as [[st2 evs2]|] eqn:Hrest; simpl; [|done].
    intros [= <- <-]. eapply IH; [done| |done].
    by eapply poll_source_length.
Qed.

(** C6. The buffer stays within [MAX_BUFFER_SIZE]: an append to a buffer
    below the bound adds the entry at the end; an append to a buffer at
    the bound first deletes the oldest tenth of the entries present, at
    least one, then adds the entry at the end, and reports the deletion;
    and from a buffer within the bound no sequence of iterations of the
    fetch loop leads to a buffer beyond it. *)
Theorem buffer_never_exceeds_bound name (buf : list (gmap string value)) parsed :
  1 ≤ MAX_BUFFER_SIZE cfg →
  Z.of_nat (length buf) ≤ MAX_BUFFER_SIZE cfg →
  Z.of_nat (length (buffer_append cfg name buf parsed).1) ≤ MAX_BUFFER_SIZE cfg
  ∧ (Z.of_nat (length buf) < MAX_BUFFER_SIZE cfg →
     buffer_append cfg name buf parsed = (buf ++ [parsed], []))
  ∧ (Z.of_nat (length buf) = MAX_BUFFER_SIZE cfg →
     let drop := Z.max 1 (Z.of_nat (length buf) / 10) in
     buffer_append cfg name buf parsed
     = (skipn (Z.to_nat drop) buf ++ [parsed], [BufferFull name drop]))
  ∧ (∀ polls st st' evs,
     buffer st = buf →
     poll_many cfg polls st = Ok (st', evs) →
     Z.of_nat (length (buffer st')) ≤ MAX_BUFFER_SIZE cfg).
Proof.
  intros Hmax Hlen. split; [by apply buffer_append_length|].
  split; [|split].
  - intros Hlt. unfold buffer_append.
    destruct (Z.leb_spec (MAX_BUFFER_SIZE cfg) (Z.of_nat (length buf))); [lia|done].
  - intros Heq drop. unfold buffer_append.
    destruct (Z.leb_spec (MAX_BUFFER_SIZE cfg) (Z.of_nat (length buf))); [|lia].
    unfold drop. by rewrite or_one_tenth.
  - intros polls st st' evs <- Hrun. by eapply poll_many_length.
Qed.

End BufferFacts.

Lemma buffer_never_exceeds_bound_witness :
  1 ≤ MAX_BUFFER_SIZE small_config
  ∧ Z.of_nat (length [bare_sample 1; bare_sample 2; bare_sample 3]) ≤ MAX_BUFFER_SIZE small_config
  ∧ buffer_append small_config "A" [bare_sample 1; bare_sample 2; bare_sample 3] (bare_sample 4)
    = ([bare_sample 2; bare_sample 3; bare_sample 4], [BufferFull "A" 1]).
Proof.
  assert (H1 : 1 ≤ MAX_BUFFER_SIZE small_config) by (simpl; lia).
  assert (H2 : Z.of_nat (length [bare_sample 1; bare_sample 2; bare_sample 3])
               ≤ MAX_BUFFER_SIZE small_config) by (simpl; lia).
  split; [exact H1|]. split; [exact H2|].
  destruct (buffer_never_exceeds_bound (H:=example_runtime) small_config "A"
              [bare_sample 1; bare_sample 2; bare_sample 3] (bare_sample 4) H1 H2)
    as (_ & _ & Hfull & _).
  apply Hfull. reflexivity.
Defined.

(** ** The sequence deduplicator *)

Section DedupFacts.
Context `{Runtime} (cfg : Config).

(** A fetch that returns a non-blank body hands the parsed mapping to
    lines 153-169. *)
Lemma poll_source_fetched ts name r_text st :
  strip r_text ≠ "" →
  poll_source cfg ts name (Fetched r_text) st
  = Ok (record_parsed cfg ts name
          (parsed_fields (strip r_text) (INCLUDE_CONDITION cfg)) st).
Proof.
  intros Hbody. unfold poll_source, poll_try, catch_all.
  rewrite bool_decide_eq_false_2 by done.
  by rewrite extract_mtconnect_values_Ok.
Qed.

Lemma stamped_sequence ts name parsed :
  stamped ts name parsed !! "sequence" = parsed !! "sequence".
Proof. unfold stamped. by rewrite !lookup_insert_ne. Qed.

(** Acceptance of a snapshot that carries a sequence. *)
Lemma record_parsed_accept ts name parsed st seq :
  parsed !! "sequence" = Some seq →
  is_None seq = false →
  py_ne seq (dict_get (last_sequence st) name) = true →
  ∃ kept evs,
    kept `suffix_of` buffer st
    ∧ record_parsed cfg ts name parsed st
      = ({| buffer := kept ++ [stamped ts name parsed];
            last_sequence := <[name := seq]> (last_sequence st);
            per_source_backoff := <[name := BACKOFF_INITIAL cfg]> (per_source_backoff st) |},
         evs).
Proof.
  intros Hseq Hnone Hne.
  assert (Hget : dict_get parsed "sequence" = seq) by (unfold dict_get; by rewrite Hseq).
  unfold record_parsed, is_new. rewrite !Hget, Hnone, Hne. simpl.
  destruct (buffer_append_suffix cfg name (buffer st) (stamped ts name parsed))
    as (kept & Hsuf & Hbuf).
  fold (stamped ts name parsed).
  destruct (buffer_append cfg name (buffer st) (stamped ts name parsed)) as [buf evs].
  simpl in Hbuf. subst buf. exists kept, evs. split; [done|].
  unfold dict_get. by rewrite stamped_sequence, Hseq.
Qed.

(** Rejection of a snapshot whose sequence equals the last accepted one. *)
Lemma record_parsed_reject ts name parsed st seq :
  parsed !! "sequence" = Some seq →
  is_None seq = false →
  py_ne seq (dict_get (last_sequence st) name) = false →
  record_parsed cfg ts name parsed st = (st, []).
Proof.
  intros Hseq Hnone Hne.
  assert (Hget : dict_get parsed "sequence" = seq) by (unfold dict_get; by rewrite Hseq).
  unfold record_parsed, is_new. by rewrite !Hget, Hnone, Hne.
Qed.

(** A snapshot without a sequence is always accepted, with the sequence
    [last_sequence.get(name, -1)]. *)
Lemma record_parsed_heartbeat ts name parsed st :
  dict_get parsed "sequence" = VNone →
  let prev := dict_get_default (last_sequence st) name (VInt (-1)) in
  let sample := stamped ts name (<["sequence" := prev]> parsed) in
  ∃ kept evs,
    kept `suffix_of` buffer st
    ∧ record_parsed cfg ts name parsed st
      = ({| buffer := kept ++ [sample];
            last_sequence := <[name := prev]> (last_sequence st);
            per_source_backoff := <[name := BACKOFF_INITIAL cfg]> (per_source_backoff st) |},
         evs).
Proof.
  intros Hseq prev sample. unfold record_parsed, is_new. rewrite Hseq. simpl.
  fold prev. fold (stamped ts name (<["sequence" := prev]> parsed)). fold sample.
  destruct (buffer_append_suffix cfg name (buffer st) sample) as (kept & Hsuf & Hbuf).
  destruct (buffer_append cfg name (buffer st) sample) as [buf evs].
  simpl in Hbuf. subst buf. exists kept, evs. split; [done|].
  unfold dict_get, sample. by rewrite stamped_sequence, lookup_insert_eq.
Qed.

(** C1. For a source whose last accepted sequence is [L], a fetched
    snapshot whose parsed sequence is the integer [s] is accepted exactly
    when [s ≠ L]: then the stamped sample is appended to the buffer and
    the stored last-accepted value becomes [s]; when [s = L] the
    iteration changes nothing.  A sequence below [L] is accepted like any
    other. *)
Theorem dedup_accepts_iff_sequence_differs ts name r_text st (L s : Z) :
  strip r_text ≠ "" →
  last_sequence st !! name = Some (VInt L) →
  parsed_fields (strip r_text) (INCLUDE_CONDITION cfg) !! "sequence" = Some (VInt s) →
  let sample := stamped ts name (parsed_fields (strip r_text) (INCLUDE_CONDITION cfg)) in
  ∃ st' evs,
    poll_source cfg ts name (Fetched r_text) st = Ok (st', evs)
    ∧ (s ≠ L →
       (∃ kept, kept `suffix_of` buffer st ∧ buffer st' = kept ++ [sample])
       ∧ last_sequence st' = <[name := VInt s]> (last_sequence st))
    ∧ (s = L → st' = st ∧ evs = [])
    ∧ (s < L → last (buffer st') = Some sample ∧ last_sequence st' !! name = Some (VInt s)).
Proof.
  intros Hbody HL Hs sample. rewrite poll_source_fetched by done.
  destruct (decide (s = L)) as [->|Hne].
  - rewrite (record_parsed_reject ts name _ st (VInt L)); [|done|done|].
    + exists st, []. split; [done|]. split; [done|]. split; [done|lia].
    + unfold dict_get, py_ne. rewrite HL. simpl. by rewrite Z.eqb_refl.
  - destruct (record_parsed_accept ts name _ st (VInt s) Hs) as (kept & evs & Hsuf & ->).
    + done.
    + unfold dict_get, py_ne. rewrite HL. simpl.
      by destruct (Z.eqb_spec s L).
    + eexists _, evs. split; [done|]. simpl. split; [|split].
      * intros _. split; [by exists kept|done].
      * done.
      * intros _. split; [by rewrite last_snoc | by rewrite lookup_insert_eq].
Qed.

(** C3. A fetched snapshot without a sequence is accepted whatever the
    table holds: the sample appended to the buffer carries the sequence
    [last_sequence.get(name, -1)], that is the previously accepted
    sequence of the source when there is one, and the stored
    last-accepted value of the source is that same value afterwards. *)
Theorem heartbeat_carries_previous_sequence ts name r_text st :
  strip r_text ≠ "" →
  dict_get (parsed_fields (strip r_text) (INCLUDE_CONDITION cfg)) "sequence" = VNone →
  let prev := dict_get_default (last_sequence st) name (VInt (-1)) in
  ∃ st' evs sample,
    poll_source cfg ts name (Fetched r_text) st = Ok (st', evs)
    ∧ last (buffer st') = Some sample
    ∧ sample !! "sequence" = Some prev
    ∧ sample !! "machine" = Some (VStr name)
    ∧ sample !! "timestamp" = Some (VStr ts)
    ∧ last_sequence st' !! name = Some prev
    ∧ (∀ L, last_sequence st !! name = Some L →
       prev = L ∧ last_sequence st' = last_sequence st).
Proof.
  intros Hbody Hseq prev. rewrite poll_source_fetched by done.
  destruct (record_parsed_heartbeat ts name _ st Hseq) as (kept & evs & _ & ->).
  eexists _, evs, _. split; [done|]. simpl. rewrite last_snoc.
  split; [done|]. fold prev.
  split; [by rewrite stamped_sequence, lookup_insert_eq|].
  split; [unfold stamped; by rewrite lookup_insert_eq|].
  split; [unfold stamped; by rewrite lookup_insert_ne, lookup_insert_eq|].
  split; [by rewrite lookup_insert_eq|].
  intros L HL. unfold prev, dict_get_default. rewrite HL. simpl.
  split; [done|]. by apply insert_id.
Qed.

(** C10. For a source without an entry in [last_sequence], a fetched
    snapshot without a sequence is recorded with the sequence [-1], and
    [-1] becomes the stored last-accepted value of the source. *)
Theorem first_heartbeat_uses_minus_one ts name r_text st :
  strip r_text ≠ "" →
  dict_get (parsed_fields (strip r_text) (INCLUDE_CONDITION cfg)) "sequence" = VNone →
  last_sequence st !! name = None →
  ∃ st' evs sample,
    poll_source cfg ts name (Fetched r_text) st = Ok (st', evs)
    ∧ last (buffer st') = Some sample
    ∧ sample !! "sequence" = Some (VInt (-1))
    ∧ sample !! "machine" = Some (VStr name)
    ∧ last_sequence st' !! name = Some (VInt (-1)).
Proof.
  intros Hbody Hseq Hnone. rewrite poll_source_fetched by done.
  destruct (record_parsed_heartbeat ts name _ st Hseq) as (kept & evs & _ & ->).
  unfold dict_get_default. rewrite Hnone. simpl.
  eexists _, evs, _. split; [done|]. simpl. rewrite last_snoc.
  split; [done|].
  split; [by rewrite stamped_sequence, lookup_insert_eq|].
  split; [unfold stamped; by rewrite lookup_insert_eq|].
  by rewrite lookup_insert_eq.
Qed.

End DedupFacts.

Ltac by_evaluation := vm_compute; first [reflexivity | discriminate | congruence].

(** A regression from 100 to 99 on the source QuickTurn is accepted. *)
Lemma dedup_accepts_iff_sequence_differs_witness :
  let st := recorder_with recorder_config {["QuickTurn" := VInt 100]} in
  strip (snapshot_text "99") ≠ ""
  ∧ last_sequence st !! "QuickTurn" = Some (VInt 100)
  ∧ @parsed_fields example_runtime (strip (snapshot_text "99"))
      (INCLUDE_CONDITION recorder_config) !! "sequence" = Some (VInt 99)
  ∧ ∃ st' evs,
      @poll_source example_runtime recorder_config "2024-05-17T09:30:00+00:00" "QuickTurn"
        (Fetched (snapshot_text "99")) st = Ok (st', evs)
      ∧ last_sequence st' !! "QuickTurn" = Some (VInt 99).
Proof.
  intros st.
  assert (H1 : strip (snapshot_text "99") ≠ "") by by_evaluation.
  assert (H2 : last_sequence st !! "QuickTurn" = Some (VInt 100)) by by_evaluation.
  assert (H3 : @parsed_fields example_runtime (strip (snapshot_text "99"))
                 (INCLUDE_CONDITION recorder_config) !! "sequence" = Some (VInt 99))
    by by_evaluation.
  split; [exact H1|]. split; [exact H2|]. split; [exact H3|].
  destruct (dedup_accepts_iff_sequence_differs (H:=example_runtime) recorder_config
              "2024-05-17T09:30:00+00:00" "QuickTurn" (snapshot_text "99") st 100 99 H1 H2 H3)
    as (st' & evs & Hrun & _ & _ & Hlow).
  exists st', evs. split; [exact Hrun|]. apply Hlow. lia.
Defined.

(** A document without [lastSequence] after sequence 100 was accepted. *)
Lemma heartbeat_carries_previous_sequence_witness :
  let st := recorder_with recorder_config {["QuickTurn" := VInt 100]} in
  strip (streams_text "") ≠ ""
  ∧ dict_get (@parsed_fields example_runtime (strip (streams_text ""))
                (INCLUDE_CONDITION recorder_config)) "sequence" = VNone
  ∧ ∃ st' evs sample,
      @poll_source example_runtime recorder_config "2024-05-17T09:30:00+00:00" "QuickTurn"
        (Fetched (streams_text "")) st = Ok (st', evs)
      ∧ last (buffer st') = Some sample
      ∧ sample !! "sequence" = Some (VInt 100)
      ∧ last_sequence st' !! "QuickTurn" = Some (VInt 100).
Proof.
  intros st.
  assert (H1 : strip (streams_text "") ≠ "") by by_evaluation.
  assert (H2 : dict_get (@parsed_fields example_runtime (strip (streams_text ""))
                           (INCLUDE_CONDITION recorder_config)) "sequence" = VNone)
    by by_evaluation.
  split; [exact H1|]. split; [exact H2|].
  destruct (heartbeat_carries_previous_sequence (H:=example_runtime) recorder_config
              "2024-05-17T09:30:00+00:00" "QuickTurn" (streams_text "") st H1 H2)
    as (st' & evs & sample & Hrun & Hlast & Hseq & _ & _ & Htable & _).
  exists st', evs, sample. done.
Defined.

(** The same document on a fresh recorder. *)
Lemma first_heartbeat_uses_minus_one_witness :
  let st := initial_recorder recorder_config in
  strip (streams_text "") ≠ ""
  ∧ dict_get (@parsed_fields example_runtime (strip (streams_text ""))
                (INCLUDE_CONDITION recorder_config)) "sequence" = VNone
  ∧ last_sequence st !! "VTC" = None
  ∧ ∃ st' evs sample,
      @poll_source example_runtime recorder_config "2024-05-17T09:30:00+00:00" "VTC"
        (Fetched (streams_text "")) st = Ok (st', evs)
      ∧ last (buffer st') = Some sample
      ∧ sample !! "sequence" = Some (VInt (-1))
      ∧ last_sequence st' !! "VTC" = Some (VInt (-1)).
Proof.
  intros st.
  assert (H1 : strip (streams_text "") ≠ "") by by_evaluation.
  assert (H2 : dict_get (@parsed_fields example_runtime (strip (streams_text ""))
                           (INCLUDE_CONDITION recorder_config)) "sequence" = VNone)
    by by_evaluation.
  assert (H3 : last_sequence st !! "VTC" = None) by by_evaluation.
  split; [exact H1|]. split; [exact H2|]. split; [exact H3|].
  destruct (first_heartbeat_uses_minus_one (H:=example_runtime) recorder_config
              "2024-05-17T09:30:00+00:00" "VTC" (streams_text "") st H1 H2 H3)
    as (st' & evs & sample & Hrun & Hlast & Hseq & _ & Htable).
  exists st', evs, sample. done.
Defined.

(** ** The backoff controller *)

Section BackoffFacts.
Context `{Runtime} (cfg : Config).
Local Open Scope Q_scope.

Lemma py_min_Qmin a b : py_min a b == Qmin a b.
Proof.
  unfold py_min. destruct (Qlt_le_dec b a) as [Hlt|Hle].
  - symmetry. apply Q.min_r. lra.
  - symmetry. by apply Q.min_l.
Qed.

(** Doubling a capped delay and capping again caps the doubled delay. *)
Lemma py_min_double x cap :
  0 <= cap → py_min (py_min x cap * 2) cap == Qmin (2 * x) cap.
Proof.
  intros Hcap. unfold py_min.
  destruct (Q.min_spec (2 * x) cap) as [[Hlt ->]|[Hle ->]];
    destruct (Qlt_le_dec cap x); destruct (Qlt_le_dec cap _); lra.
Qed.

(** A failed request doubles the stored delay, caps it, and only then
    sleeps. *)
Lemma poll_source_failed ts name e st cur :
  per_source_backoff st !! name = Some cur →
  let delay := py_min (cur * 2) (BACKOFF_MAX cfg) in
  poll_source cfg ts name (Failed e) st
  = Ok ({| buffer := buffer st;
           last_sequence := last_sequence st;
           per_source_backoff := <[name := delay]> (per_source_backoff st) |},
        [Slept delay]).
Proof.
  intros Hcur. unfold poll_source, poll_try, on_fetch_error, catch_all.
  by rewrite Hcur.
Qed.

(** An accepted snapshot stores [BACKOFF_INITIAL] again. *)
Lemma record_parsed_resets_delay ts name parsed st :
  is_new (dict_get parsed "sequence") (last_sequence st) name = true →
  per_source_backoff (record_parsed cfg ts name parsed st).1 !! name
  = Some (BACKOFF_INITIAL cfg).
Proof.
  intros Hnew. unfold record_parsed. rewrite Hnew.
  destruct (buffer_append _ _ _ _). simpl. by rewrite lookup_insert_eq.
Qed.

(** A rejected snapshot leaves the delay where the failures put it. *)
Lemma record_parsed_keeps_delay ts name parsed st :
  is_new (dict_get parsed "sequence") (last_sequence st) name = false →
  record_parsed cfg ts name parsed st = (st, []).
Proof. intros Hnew. unfold record_parsed. by rewrite Hnew. Qed.

(** C2, as the code has it. With minimum delay [d] and cap [D ≥ 0], three
    failed requests in a row for a source whose delay is [d] make the
    poller sleep [min(2d, D)], then [min(4d, D)], then [min(8d, D)]: the
    delay is doubled before each sleep, so [d] itself is never slept.
    A later request whose snapshot is accepted stores [d] again. *)
Theorem backoff_doubles_before_each_wait name st :
  let d := BACKOFF_INITIAL cfg in
  let D := BACKOFF_MAX cfg in
  0 <= D →
  per_source_backoff st !! name = Some d →
  ∃ st3 w1 w2 w3,
    poll_many cfg (three_failures name) st = Ok (st3, [Slept w1; Slept w2; Slept w3])
    ∧ w1 == Qmin (2 * d) D ∧ w2 == Qmin (4 * d) D ∧ w3 == Qmin (8 * d) D
    ∧ per_source_backoff st3 !! name = Some w3
    ∧ buffer st3 = buffer st ∧ last_sequence st3 = last_sequence st
    ∧ ∀ ts r_text,
        strip r_text ≠ "" →
        is_new (dict_get (parsed_fields (strip r_text) (INCLUDE_CONDITION cfg)) "sequence")
               (last_sequence st) name = true →
        ∃ st4 evs,
          poll_source cfg ts name (Fetched r_text) st3 = Ok (st4, evs)
          ∧ per_source_backoff st4 !! name = Some d.
Proof.
  intros d D HD Hd. unfold three_failures, poll_many.
  rewrite (poll_source_failed _ name _ st d Hd). simpl.
  erewrite poll_source_failed by (simpl; apply lookup_insert_eq). simpl.
  erewrite poll_source_failed by (simpl; apply lookup_insert_eq). simpl.
  fold d D.
  eexists _, _, _, _. split; [reflexivity|].
  assert (H1 : py_min (d * 2) D == Qmin (2 * d) D).
  { rewrite py_min_Qmin. apply Q.min_compat; [ring | reflexivity]. }
  assert (H2 : py_min (py_min (d * 2) D * 2) D == Qmin (4 * d) D).
  { rewrite py_min_double by done. apply Q.min_compat; [ring | reflexivity]. }
  assert (H3 : py_min (py_min (py_min (d * 2) D * 2) D * 2) D == Qmin (8 * d) D).
  { destruct (Q.min_spec (8 * d) D) as [[Hlt ->]|[Hle ->]];
      unfold py_min; repeat destruct (Qlt_le_dec _ _); lra. }
  split; [exact H1|]. split; [exact H2|]. split; [exact H3|].
  split; [apply lookup_insert_eq|]. split; [done|]. split; [done|].
  intros ts r_text Hbody Hnew. rewrite poll_source_fetched by done.
  match goal with |- context [record_parsed cfg ts name ?p ?s] =>
    pose proof (record_parsed_resets_delay ts name p s Hnew) as Hreset;
    destruct (record_parsed cfg ts name p s) as [st4 evs] end.
  by exists st4, evs.
Qed.

End BackoffFacts.

(** With the delays of the source, 0.5 s and 8 s, the three sleeps are 1 s,
    2 s and 4 s. *)
Lemma backoff_doubles_before_each_wait_witness :
  let st := initial_recorder recorder_config in
  (0 <= BACKOFF_MAX recorder_config)%Q
  ∧ per_source_backoff st !! "QuickTurn" = Some (BACKOFF_INITIAL recorder_config)
  ∧ ∃ st3 w1 w2 w3,
      @poll_many example_runtime recorder_config (three_failures "QuickTurn") st
      = Ok (st3, [Slept w1; Slept w2; Slept w3])
      ∧ (w1 == 1)%Q ∧ (w2 == 2)%Q ∧ (w3 == 4)%Q.
Proof.
  intros st.
  assert (H1 : (0 <= BACKOFF_MAX recorder_config)%Q) by (unfold Qle; simpl; lia).
  assert (H2 : per_source_backoff st !! "QuickTurn" = Some (BACKOFF_INITIAL recorder_config))
    by by_evaluation.
  split; [exact H1|]. split; [exact H2|].
  destruct (backoff_doubles_before_each_wait (H:=example_runtime) recorder_config
              "QuickTurn" st H1 H2)
    as (st3 & w1 & w2 & w3 & Hrun & Hw1 & Hw2 & Hw3 & _).
  exists st3, w1, w2, w3. split; [exact Hrun|].
  split; [|split].
  - rewrite Hw1. by_evaluation.
  - rewrite Hw2. by_evaluation.
  - rewrite Hw3. by_evaluation.
Defined.

(** The claim of C2 fails on the source's own configuration: the first of
    three failures makes the poller sleep 1 s, twice the minimum delay, and
    the sleeps are 1 s, 2 s, 4 s rather than 0.5 s, 1 s, 2 s. *)
Lemma backoff_first_wait_is_not_minimum :
  let d := BACKOFF_INITIAL recorder_config in
  ∃ st3 w1 w2 w3,
    @poll_many example_runtime recorder_config (three_failures "QuickTurn")
      (initial_recorder recorder_config)
    = Ok (st3, [Slept w1; Slept w2; Slept w3])
    ∧ (w1 == 2 * d)%Q ∧ (w2 == 4 * d)%Q ∧ (w3 == 8 * d)%Q
    ∧ ¬ (w1 == d)%Q ∧ ¬ (w2 == 2 * d)%Q ∧ ¬ (w3 == 4 * d)%Q.
Proof.
  intros d. eexists _, _, _, _. split; [vm_compute; reflexivity|].
  repeat split; by_evaluation.
Qed.

(** After a failure, a successful request whose snapshot repeats the last
    accepted sequence leaves the doubled delay in place: the reset of
    line 169 is inside the branch of line 158. *)
Example backoff_kept_after_rejected_snapshot :
  ∃ st2 evs w,
    @poll_many example_runtime recorder_config
      [ ("2024-05-17T09:30:00+00:00", "QuickTurn", Failed RequestException);
        ("2024-05-17T09:30:01+00:00", "QuickTurn", Fetched (snapshot_text "100")) ]
      (recorder_with recorder_config {["QuickTurn" := VInt 100]})
    = Ok (st2, evs)
    ∧ per_source_backoff st2 !! "QuickTurn" = Some w
    ∧ (w == 1)%Q ∧ ¬ (w == BACKOFF_INITIAL recorder_config)%Q.
Proof.
  eexists _, _, _. split; [vm_compute; reflexivity|].
  repeat split; by_evaluation.
Qed.

(** ** The snapshot parser *)

Section ExtractFacts.
Context `{Runtime}.

Lemma truthy_None (o : option string) : truthy o = None ↔ o = None ∨ o = Some "".
Proof.
  destruct o as [[|c s]|]; simpl; split; try done; auto; by intros [?|?].
Qed.

Lemma truthy_Some (o : option string) s : truthy o = Some s ↔ o = Some s ∧ s ≠ "".
Proof.
  destruct o as [[|c s']|]; simpl; split; try done.
  - intros [[= <-] Hne]. by destruct Hne.
  - by intros [= <-].
  - by intros [? _].
  - by intros [? _].
Qed.

(** A later element with another key does not disturb a stored field. *)
Lemma foldl_store_item_other k items : ∀ out,
  Forall (λ e, field_key e ≠ k) items →
  foldl store_item out items !! k = out !! k.
Proof.
  induction items as [|e items IH]; intros out Hall; simpl; [done|].
  inversion Hall as [|? ? Hk Hrest]; subst.
  rewrite IH by done. unfold store_item. by rewrite lookup_insert_ne.
Qed.

Lemma foldl_store_condition_other k items : ∀ out,
  Forall (λ e, field_key e ≠ k) items →
  foldl store_condition out items !! k = out !! k.
Proof.
  induction items as [|e items IH]; intros out Hall; simpl; [done|].
  inversion Hall as [|? ? Hk Hrest]; subst.
  rewrite IH by done. unfold store_condition. by rewrite lookup_insert_ne.
Qed.

(** The field of the last element with a given key is the one that stays. *)
Lemma foldl_store_item_last out before el after :
  Forall (λ e, field_key e ≠ field_key el) after →
  foldl store_item out (before ++ el :: after) !! field_key el
  = Some (try_number (field_text el)).
Proof.
  intros Hafter. rewrite foldl_app. simpl.
  rewrite foldl_store_item_other by done.
  unfold store_item. by rewrite lookup_insert_eq.
Qed.

(** The mapping returned for a document whose header parses. *)
Lemma parsed_fields_parsed xml_text include_condition root out0 :
  fromstring xml_text = Ok root →
  store_sequence root ∅ = Ok out0 →
  parsed_fields xml_text include_condition
  = let out := foldl store_item out0 (data_items root) in
    if include_condition
    then foldl store_condition out (findall_children root (q root "Condition"))
    else out.
Proof.
  intros Hroot Hseq.
  unfold parsed_fields, extract_mtconnect_values, catch_all, extract_body, data_items.
  rewrite Hroot. simpl. rewrite Hseq. simpl. rewrite foldl_app.
  by destruct include_condition.
Qed.

Lemma parsed_fields_unparsable xml_text include_condition e :
  fromstring xml_text = Raise e →
  parsed_fields xml_text include_condition = ∅.
Proof.
  intros Hroot. unfold parsed_fields, extract_mtconnect_values, catch_all.
  by rewrite Hroot.
Qed.

Lemma parsed_fields_bad_sequence xml_text include_condition root e :
  fromstring xml_text = Ok root →
  store_sequence root ∅ = Raise e →
  parsed_fields xml_text include_condition = ∅.
Proof.
  intros Hroot Hseq.
  unfold parsed_fields, extract_mtconnect_values, catch_all, extract_body.
  rewrite Hroot. simpl. by rewrite Hseq.
Qed.

(** The header step stores nothing when there is no header or the header
    has no [lastSequence]. *)
Lemma store_sequence_absent root :
  (∀ header, find root (q root "Header") = Some header →
             attrib header !! "lastSequence" = None) →
  store_sequence root ∅ = Ok ∅.
Proof.
  intros Hhdr. unfold store_sequence.
  destruct (find root (q root "Header")) as [header|]; [|done].
  by rewrite (Hhdr header eq_refl).
Qed.

(** C4, as the code has it. In a document that parses and whose header
    sequence, if any, is an integer, every child [el] of a [Samples] or
    [Events] section is stored under the key [field_key el]: its [name]
    attribute when that is present and not empty, else its [dataItemId]
    attribute when that is present and not empty, else the part of its tag
    after the namespace.  The value is null when the text is missing or
    empty; otherwise it is computed from the text with surrounding white
    space removed: the integer if [int] accepts it, else the float if
    [float] accepts it, else the stripped string itself.  The mapping
    returned holds that value under that key unless a later element has the
    same key. *)
Theorem parser_flattens_samples_and_events xml_text include_condition root out0
    before el after :
  fromstring xml_text = Ok root →
  store_sequence root ∅ = Ok out0 →
  data_items root = before ++ el :: after →
  Forall (λ e, field_key e ≠ field_key el) after →
  (include_condition = true →
   Forall (λ c, field_key c ≠ field_key el) (findall_children root (q root "Condition"))) →
  parsed_fields xml_text include_condition !! field_key el
  = Some (try_number (field_text el))
  ∧ (∀ n, attrib el !! "name" = Some n → n ≠ "" → field_key el = n)
  ∧ (∀ d, truthy (attrib el !! "name") = None →
          attrib el !! "dataItemId" = Some d → d ≠ "" → field_key el = d)
  ∧ (truthy (attrib el !! "name") = None →
     truthy (attrib el !! "dataItemId") = None →
     field_key el = split_last "}" (tag el))
  ∧ (text el = None ∨ text el = Some "" → try_number (field_text el) = VNone)
  ∧ (∀ t, text el = Some t → t ≠ "" →
     try_number (field_text el)
     = match py_int (strip t) with
       | Some n => VInt n
       | None =>
           match py_float (strip t) with
           | Some f => VFloat f
           | None => VStr (strip t)
           end
       end).
Proof.
  intros Hroot Hseq Hitems Hafter Hcond. split.
  - rewrite (parsed_fields_parsed _ _ root out0) by done. simpl.
    destruct include_condition.
    + rewrite foldl_store_condition_other by auto.
      rewrite Hitems. by apply foldl_store_item_last.
    + rewrite Hitems. by apply foldl_store_item_last.
  - unfold field_key, field_text, try_number. repeat split.
    + intros n Hn Hne. by rewrite (proj2 (truthy_Some _ n) (conj Hn Hne)).
    + intros d Hname Hd Hne. rewrite Hname.
      by rewrite (proj2 (truthy_Some _ d) (conj Hd Hne)).
    + intros Hname Hd. by rewrite Hname, Hd.
    + intros Htext. by rewrite (proj2 (truthy_None _) Htext).
    + intros t Ht Hne. by rewrite (proj2 (truthy_Some _ t) (conj Ht Hne)).
Qed.

(** C5, as the code has it. The parser returns a mapping for every text and
    flag; the mapping is empty when the text is not well-formed XML, when
    the header's [lastSequence] is not an integer, and when the document has
    no header sequence and no child under a [Samples], [Events] or (with
    the flag) [Condition] element.  The root element itself is not
    examined. *)
Theorem parser_never_raises xml_text include_condition :
  (∃ out, extract_mtconnect_values xml_text include_condition = Ok out)
  ∧ (∀ e, fromstring xml_text = Raise e →
          extract_mtconnect_values xml_text include_condition = Ok ∅)
  ∧ (∀ root e, fromstring xml_text = Ok root →
               store_sequence root ∅ = Raise e →
               extract_mtconnect_values xml_text include_condition = Ok ∅)
  ∧ (∀ root, fromstring xml_text = Ok root →
             (∀ header, find root (q root "Header") = Some header →
                        attrib header !! "lastSequence" = None) →
             data_items root = [] →
             (include_condition = true → findall_children root (q root "Condition") = []) →
             extract_mtconnect_values xml_text include_condition = Ok ∅).
Proof.
  rewrite extract_mtconnect_values_Ok. split; [by eexists|].
  split; [|split].
  - intros e Hroot. by rewrite (parsed_fields_unparsable _ _ e).
  - intros root e Hroot Hseq. by rewrite (parsed_fields_bad_sequence _ _ root e).
  - intros root Hroot Hhdr Hitems Hcond.
    rewrite (parsed_fields_parsed _ _ root ∅ Hroot (store_sequence_absent root Hhdr)).
    simpl. rewrite Hitems. simpl.
    destruct include_condition; [|done]. by rewrite Hcond.
Qed.

End ExtractFacts.

(** The sample [Position] of the example document is stored under its
    [name] with the float its padded text denotes. *)
Lemma parser_flattens_samples_and_events_witness :
  let root := snapshot_tree "101" in
  let after := skipn 1 (data_items root) in
  @fromstring example_runtime (snapshot_text "101") = Ok root
  ∧ @store_sequence example_runtime root ∅ = Ok {["sequence" := VInt 101]}
  ∧ data_items root = [] ++ position_element :: after
  ∧ Forall (λ e, field_key e ≠ field_key position_element) after
  ∧ @parsed_fields example_runtime (snapshot_text "101") false !! "Xpos"
    = Some (VFloat 12.5%float).
Proof.
  intros root after.
  assert (H1 : @fromstring example_runtime (snapshot_text "101") = Ok root) by by_evaluation.
  assert (H2 : @store_sequence example_runtime root ∅ = Ok {["sequence" := VInt 101]})
    by by_evaluation.
  assert (H3 : data_items root = [] ++ position_element :: after) by by_evaluation.
  assert (H4 : Forall (λ e, field_key e ≠ field_key position_element) after).
  { unfold after. repeat (apply Forall_cons_2; [by_evaluation|]). apply Forall_nil_2. }
  split; [exact H1|]. split; [exact H2|]. split; [exact H3|]. split; [exact H4|].
  destruct (parser_flattens_samples_and_events (H:=example_runtime)
              (snapshot_text "101") false root {["sequence" := VInt 101]}
              [] position_element after H1 H2 H3 H4) as (Hfield & _).
  - discriminate.
  - exact Hfield.
Defined.

(** The claim of C4 fails on padded text that is not a number: the element
    [<Block>  G01 X10  </Block>] under [Events] yields the stripped string,
    not its text as it stands. *)
Lemma parser_strips_text_before_fallback :
  data_items (snapshot_tree "101") !! 5%nat = Some block_element
  ∧ text block_element = Some "  G01 X10  "
  ∧ @py_int example_runtime "  G01 X10  " = None
  ∧ @py_float example_runtime "  G01 X10  " = None
  ∧ @parsed_fields example_runtime (snapshot_text "101") false !! "Block"
    = Some (VStr "G01 X10")
  ∧ @parsed_fields example_runtime (snapshot_text "101") false !! "Block"
    ≠ Some (VStr "  G01 X10  ").
Proof. repeat split; by_evaluation. Qed.

(** A truncated response yields the empty mapping. *)
Lemma parser_never_raises_witness :
  @fromstring example_runtime truncated_text = Raise ParseError
  ∧ @extract_mtconnect_values example_runtime truncated_text false = Ok ∅.
Proof.
  assert (H1 : @fromstring example_runtime truncated_text = Raise ParseError)
    by by_evaluation.
  split; [exact H1|].
  destruct (parser_never_raises (H:=example_runtime) truncated_text false)
    as (_ & Hbad & _).
  exact (Hbad ParseError H1).
Defined.

(** The claim of C5 fails on a well-formed document with another root: the
    parser does not look at the root and returns what it finds under it. *)
Lemma parser_keeps_fields_under_other_root :
  @fromstring example_runtime other_root_text = Ok other_root_tree
  ∧ tag other_root_tree = "Report"
  ∧ @extract_mtconnect_values example_runtime other_root_text false
    = Ok {["Load" := VInt 7]}
  ∧ ({["Load" := VInt 7]} : gmap string value) ≠ ∅.
Proof. repeat split; by_evaluation. Qed.

(** ** The flusher *)

Section FlusherFacts.
Context `{Runtime} (cfg : Config).

(** The log file of a sample is fixed by its machine and by the first ten
    characters of its timestamp. *)
Lemma entry_file_sample env entry machine ts :
  entry !! "machine" = Some (VStr machine) →
  entry !! "timestamp" = Some (VStr ts) →
  entry_dir cfg entry = Ok (path_join (DATA_DIR cfg) machine)
  ∧ entry_file cfg env entry
    = Ok (path_join (path_join (DATA_DIR cfg) machine) (str_take 10 ts +:+ ".jsonl")).
Proof.
  intros Hm Ht. unfold entry_file, entry_dir, entry_day, dict_get_default.
  by rewrite Hm, Ht.
Qed.

Lemma lines_of_append_line path entry disk p :
  lines_of (append_line path entry disk) p
  = if decide (path = p) then lines_of disk p ++ [entry] else lines_of disk p.
Proof.
  unfold lines_of, append_line. simpl. destruct (decide (path = p)) as [->|Hne].
  - by rewrite lookup_insert_eq.
  - by rewrite lookup_insert_ne.
Qed.

Lemma lines_of_ensure_dir path disk p :
  lines_of (ensure_dir path disk) p = lines_of disk p.
Proof. done. Qed.

(** The loop never touches the state file. *)
Lemma write_entries_state_file env to_write : ∀ i written disk,
  state_file (write_entries cfg env i to_write written disk).2 = state_file disk.
Proof.
  induction to_write as [|entry rest IH]; intros i written disk; simpl; [done|].
  destruct (entry_dir cfg entry) as [dir_path|e]; [|done].
  destruct (makedirs_ok env i); [|done].
  destruct (append_ok env i); by rewrite IH.
Qed.

(** When every directory can be made, the loop runs to its end: it writes
    the entries whose append succeeds, each to its own file and in order,
    and counts them. *)
Lemma write_entries_spec env to_write : ∀ i written disk,
  (∀ j, (j < length to_write)%nat → makedirs_ok env (i + j) = true) →
  Forall is_sample to_write →
  ∃ disk',
    write_entries cfg env i to_write written disk
    = (Ok (written + Z.of_nat (length (written_entries env i to_write))), disk')
    ∧ ∀ p, lines_of disk' p
           = lines_of disk p
             ++ filter (λ e, entry_file cfg env e = Ok p) (written_entries env i to_write).
Proof.
  induction to_write as [|entry rest IH]; intros i written disk Hdirs Hall; simpl.
  - exists disk. split; [f_equal; f_equal; lia|]. intros p. by rewrite app_nil_r.
  - inversion Hall as [|? ? (machine & ts & Hm & Ht) Hrest]; subst.
    destruct (entry_file_sample env entry machine ts Hm Ht) as [Hdir Hfile].
    rewrite Hdir.
    assert (Hi : makedirs_ok env i = true).
    { rewrite <- (Nat.add_0_r i). apply Hdirs. simpl. lia. }
    rewrite Hi.
    assert (Hdirs' : ∀ j, (j < length rest)%nat → makedirs_ok env (S i + j) = true).
    { intros j Hj. replace (S i + j)%nat with (i + S j)%nat by lia.
      apply Hdirs. simpl. lia. }
    assert (Hday : entry_day env entry = str_take 10 ts).
    { unfold entry_day, dict_get_default. by rewrite Ht. }
    rewrite Hday.
    destruct (append_ok env i).
    + edestruct (IH (S i) (written + 1)) as (disk' & Hrun & Hlines); [done..|].
      exists disk'. split.
      * rewrite Hrun. simpl. f_equal. f_equal. lia.
      * intros p. rewrite Hlines, lines_of_append_line, lines_of_ensure_dir.
        rewrite filter_cons, Hfile.
        destruct (decide (path_join (path_join (DATA_DIR cfg) machine)
                            (str_take 10 ts +:+ ".jsonl") = p)) as [->|Hne].
        -- rewrite decide_True by done. by rewrite <- app_assoc.
        -- rewrite decide_False by congruence. done.
    + edestruct (IH (S i) written) as (disk' & Hrun & Hlines); [done..|].
      exists disk'. split; [done|]. intros p. by rewrite Hlines, lines_of_ensure_dir.
Qed.

(** Nothing is written exactly when every append fails. *)
Lemma written_entries_nil env to_write : ∀ i,
  written_entries env i to_write = []
  ↔ ∀ j, (j < length to_write)%nat → append_ok env (i + j) = false.
Proof.
  induction to_write as [|entry rest IH]; intros i; simpl.
  - split; [intros _ j Hj; lia | done].
  - destruct (append_ok env i) eqn:Hi.
    + split; [done|]. intros Hall. specialize (Hall 0%nat ltac:(lia)).
      rewrite Nat.add_0_r in Hall. congruence.
    + rewrite IH. split.
      * intros Hall [|j] Hj; [by rewrite Nat.add_0_r|].
        replace (i + S j)%nat with (S i + j)%nat by lia. apply Hall. lia.
      * intros Hall j Hj. replace (S i + j)%nat with (i + S j)%nat by lia.
        apply Hall. lia.
Qed.

Lemma with_buffer_nil st : buffer st = [] → with_buffer [] st = st.
Proof. destruct st. simpl. by intros ->. Qed.

Lemma lines_of_state_save env st disk p :
  lines_of (state_save env st disk) p = lines_of disk p.
Proof. unfold state_save. by destruct (state_write_ok env). Qed.

(** X17. Lines 192-216 on a list of samples, when every directory can be made:
    the samples whose append succeeds are added to their files in order, a
    sample whose append fails is left out alone, nothing is raised; the
    state file is written when at least one append succeeded and the state
    file can be written, and is left as it was otherwise. *)
Lemma write_and_persist_spec env to_write st disk :
  (∀ j, (j < length to_write)%nat → makedirs_ok env j = true) →
  Forall is_sample to_write →
  let kept := written_entries env 0 to_write in
  ∃ disk',
    write_and_persist cfg env to_write st disk = (Ok (), st, disk')
    ∧ (∀ p, lines_of disk' p
            = lines_of disk p ++ filter (λ e, entry_file cfg env e = Ok p) kept)
    ∧ ((∃ j, (j < length to_write)%nat ∧ append_ok env j = true) →
       state_write_ok env = true →
       state_file disk' = Document (dump_table (last_sequence st)))
    ∧ ((∀ j, (j < length to_write)%nat → append_ok env j = false) →
       state_file disk' = state_file disk)
    ∧ (state_write_ok env = false → state_file disk' = state_file disk).
Proof.
  intros Hdirs Hall kept.
  destruct (write_entries_spec env to_write 0 0 disk Hdirs Hall) as (disk1 & Hrun & Hlines).
  rewrite Z.add_0_l in Hrun. fold kept in Hrun, Hlines.
  assert (Hsf : state_file disk1 = state_file disk).
  { pose proof (write_entries_state_file env to_write 0 0 disk) as Hsf.
    by rewrite Hrun in Hsf. }
  unfold write_and_persist. rewrite Hrun.
  destruct (Z.eqb_spec (Z.of_nat (length kept)) 0) as [Hz|Hz].
  - assert (Hnil : kept = []) by (apply length_zero_iff_nil; lia).
    exists disk1. split; [done|]. split; [done|]. split; [|done].
    intros (j & Hj & Hok) _.
    pose proof (proj1 (written_entries_nil env to_write 0%nat) Hnil j Hj) as Hno.
    simpl in Hno. congruence.
  - eexists. split; [done|]. split; [|split; [|split]].
    + intros p. by rewrite lines_of_state_save.
    + intros _ Hsave. unfold state_save. by rewrite Hsave.
    + intros Hnone. destruct Hz. unfold kept.
      by rewrite (proj2 (written_entries_nil env to_write 0%nat) Hnone).
    + intros Hsave. unfold state_save. by rewrite Hsave.
Qed.

(** Every sample the poller appends has a machine and a timestamp that are
    strings, as the write loop asks of its entries. *)
Lemma record_parsed_samples ts name parsed st :
  Forall is_sample (buffer st) →
  Forall is_sample (buffer (record_parsed cfg ts name parsed st).1).
Proof.
  intros Hall. unfold record_parsed. destruct (is_new _ _ _); [|done].
  match goal with |- context [buffer_append cfg name (buffer st) ?x] =>
    destruct (buffer_append_suffix cfg name (buffer st) x) as (kept & [old Hold] & Hbuf);
    destruct (buffer_append cfg name (buffer st) x) as [buf evs];
    assert (Hx : is_sample x)
  end.
  { exists name, ts. split; [by rewrite lookup_insert_eq|].
    by rewrite lookup_insert_ne, lookup_insert_eq. }
  simpl in *. subst buf. rewrite Hold in Hall.
  apply Forall_app in Hall as [_ Hkept]. apply Forall_app. split; [done|].
  by apply Forall_singleton.
Qed.

(** The flush empties the buffer, visits no entry, and leaves the disk as
    it was: the list it loops over is the buffer it has just emptied. *)
Lemma flush_buffer_to_disk_aliased env st disk :
  flush_buffer_to_disk cfg env st disk = (Ok (), with_buffer [] st, disk).
Proof.
  unfold flush_buffer_to_disk. destruct (buffer st) eqn:Hbuf.
  - by rewrite with_buffer_nil.
  - done.
Qed.

End FlusherFacts.

(** Lines 192-216 on a list of two samples, the append of the first
    failing: the second is in its file, the first is in none. *)
Example write_and_persist_ex :
  let env := failing_env [] [0%nat] in
  let st := recorder_holding [] in
  ∃ disk',
    @write_and_persist example_runtime recorder_config env two_samples st empty_disk
    = (Ok (), st, disk')
    ∧ lines_of disk' "data/VTC/2024-05-17.jsonl" = [sample_of "VTC" 7]
    ∧ lines_of disk' "data/QuickTurn/2024-05-17.jsonl" = []
    ∧ state_file disk' = Document (dump_table (last_sequence st)).
Proof.
  intros env st. eexists. split; [vm_compute; reflexivity|].
  repeat split; by_evaluation.
Qed.

(** [os.makedirs] is outside the [try] of lines 206-211: when it fails for
    an entry the loop raises and the entries after it are not written. *)
Example write_and_persist_raises_ex :
  let env := failing_env [0%nat] [] in
  let st := recorder_holding [] in
  ∃ disk',
    @write_and_persist example_runtime recorder_config env two_samples st empty_disk
    = (Raise OSError, st, disk')
    ∧ lines_of disk' "data/VTC/2024-05-17.jsonl" = [].
Proof.
  intros env st. eexists. split; [vm_compute; reflexivity|]. by_evaluation.
Qed.

(** C8. The code at the failing input: two samples are in the buffer and
    every operation on the disk succeeds.  The flush empties the buffer and
    returns, and the log files of the two samples hold no line: line 190
    binds [to_write] to the buffer itself and empties it, so the loop
    visits no entry.  Run on a copy of the two samples, lines 192-216 would
    have put each in the log file of its machine and day. *)
Theorem flush_appends_no_drained_sample :
  let env := failing_env [] [] in
  let st := recorder_holding two_samples in
  buffer st = two_samples
  ∧ @entry_file example_runtime recorder_config env (sample_of "QuickTurn" 101)
    = Ok "data/QuickTurn/2024-05-17.jsonl"
  ∧ @entry_file example_runtime recorder_config env (sample_of "VTC" 7)
    = Ok "data/VTC/2024-05-17.jsonl"
  ∧ (∃ disk',
       @flush_buffer_to_disk example_runtime recorder_config env st empty_disk
       = (Ok (), with_buffer [] st, disk')
       ∧ lines_of disk' "data/QuickTurn/2024-05-17.jsonl" = []
       ∧ lines_of disk' "data/VTC/2024-05-17.jsonl" = [])
  ∧ (∃ disk',
       @write_and_persist example_runtime recorder_config env (contents st (Own two_samples))
         (with_buffer [] st) empty_disk
       = (Ok (), with_buffer [] st, disk')
       ∧ lines_of disk' "data/QuickTurn/2024-05-17.jsonl" = [sample_of "QuickTurn" 101]
       ∧ lines_of disk' "data/VTC/2024-05-17.jsonl" = [sample_of "VTC" 7]).
Proof.
  intros env st. split; [by_evaluation|]. split; [by_evaluation|].
  split; [by_evaluation|]. split.
  - exists empty_disk. split; [apply flush_buffer_to_disk_aliased|].
    split; by_evaluation.
  - eexists. split; [vm_compute; reflexivity|]. split; by_evaluation.
Qed.

(** C7. The code at the failing input: one sample is in the buffer, the
    table of last accepted sequences is not empty, and every operation on
    the disk succeeds.  The flush drains the sample and returns, and the
    state file is still missing: the loop visits no entry (line 190), so
    [written] is 0 and [state_save] is not called.  Run on a copy of the
    sample, lines 192-216 would have written the table to the state
    file. *)
Theorem flush_leaves_state_file_unwritten :
  let env := failing_env [] [] in
  let st := recorder_holding [sample_of "QuickTurn" 101] in
  buffer st = [sample_of "QuickTurn" 101]
  ∧ last_sequence st = {["QuickTurn" := VInt 101; "VTC" := VInt 7]}
  ∧ state_write_ok env = true
  ∧ (∃ disk',
       @flush_buffer_to_disk example_runtime recorder_config env st empty_disk
       = (Ok (), with_buffer [] st, disk')
       ∧ state_file disk' = Missing)
  ∧ (∃ disk',
       @write_and_persist example_runtime recorder_config env
         (contents st (Own [sample_of "QuickTurn" 101])) (with_buffer [] st) empty_disk
       = (Ok (), with_buffer [] st, disk')
       ∧ state_file disk' = Document (dump_table (last_sequence st))).
Proof.
  intros env st. split; [by_evaluation|]. split; [by_evaluation|].
  split; [reflexivity|]. split.
  - exists empty_disk. split; [apply flush_buffer_to_disk_aliased | reflexivity].
  - eexists. split; [vm_compute; reflexivity|]. by_evaluation.
Qed.

(** ** The state file *)

Section StateFacts.
Context `{Runtime} (cfg : Config).

(** Reading back the members [json.dump] wrote gives the dict that was
    dumped. *)
Lemma load_object_map_to_list (m : gmap string json) :
  load_object (map_to_list m) = m.
Proof.
  unfold load_object. rewrite <- (list_to_map_to_list m) at 2.
  apply list_to_map_proper.
  - rewrite fmap_reverse, reverse_Permutation. apply NoDup_fst_map_to_list.
  - apply reverse_Permutation.
Qed.

(** [int(v)] is the identity on the integers of a dumped table. *)
Lemma int_table_dump (table : gmap string Z) :
  int_table (dump_value <$> (VInt <$> table)) = Some table.
Proof.
  unfold int_table. rewrite bool_decide_eq_true_2.
  - f_equal. apply map_eq. intros k.
    rewrite lookup_omap, !lookup_fmap. by destruct (table !! k).
  - intros k v. rewrite !lookup_fmap. destruct (table !! k); simpl; [|done].
    intros [= <-]. by eexists.
Qed.

(** [state_load] after a successful [state_save] of an integer table. *)
Lemma state_load_state_save env (table : gmap string Z) st st0 disk :
  state_write_ok env = true →
  last_sequence st = VInt <$> table →
  last_sequence (state_load st0 (state_save env st disk))
  = (VInt <$> table) ∪ last_sequence st0.
Proof.
  intros Hsave Htable. unfold state_load, state_save. rewrite Hsave. simpl.
  unfold dump_table. rewrite load_object_map_to_list, Htable, int_table_dump.
  done.
Qed.

Lemma buffer_state_load st0 disk : buffer (state_load st0 disk) = buffer st0.
Proof.
  unfold state_load. destruct (state_file disk) as [| |[| | | | | |members]]; try done.
  by destruct (int_table (load_object members)).
Qed.

(** C9. Writing a table of integer sequences with [state_save] and
    starting again from the file with [state_load] restores the same
    table; the recorder so restarted rejects a snapshot of a source that
    carries the persisted sequence of the source, leaving the buffer empty,
    and accepts one that carries the next sequence, which puts exactly one
    sample in the buffer. *)
Theorem state_round_trip_dedups_replay env (table : gmap string Z) st disk :
  state_write_ok env = true →
  last_sequence st = VInt <$> table →
  let st0 := startup cfg (state_save env st disk) in
  last_sequence st0 = VInt <$> table
  ∧ buffer st0 = []
  ∧ ∀ name L ts r_text s,
      table !! name = Some L →
      strip r_text ≠ "" →
      parsed_fields (strip r_text) (INCLUDE_CONDITION cfg) !! "sequence" = Some (VInt s) →
      (s = L → poll_source cfg ts name (Fetched r_text) st0 = Ok (st0, []))
      ∧ (s = L + 1 →
         ∃ st1 evs,
           poll_source cfg ts name (Fetched r_text) st0 = Ok (st1, evs)
           ∧ buffer st1
             = [stamped ts name (parsed_fields (strip r_text) (INCLUDE_CONDITION cfg))]
           ∧ last_sequence st1 !! name = Some (VInt (L + 1))).
Proof.
  intros Hsave Htable st0.
  assert (Hlast : last_sequence st0 = VInt <$> table).
  { unfold st0, startup. rewrite (state_load_state_save env table) by done.
    simpl. apply (right_id_L ∅ (∪)). }
  assert (Hbuf : buffer st0 = []).
  { unfold st0, startup. by rewrite buffer_state_load. }
  split; [done|]. split; [done|].
  intros name L ts r_text s HL Hbody Hs.
  assert (Hget : dict_get (last_sequence st0) name = VInt L).
  { unfold dict_get. by rewrite Hlast, lookup_fmap, HL. }
  rewrite poll_source_fetched by done. split.
  - intros ->. f_equal.
    apply (record_parsed_reject cfg ts name _ st0 (VInt L)); [done..|].
    rewrite Hget. unfold py_ne. simpl. by rewrite Z.eqb_refl.
  - intros ->.
    destruct (record_parsed_accept cfg ts name _ st0 (VInt (L + 1)) Hs)
      as (kept & evs & Hsuf & ->).
    + done.
    + rewrite Hget. unfold py_ne. simpl. destruct (Z.eqb_spec (L + 1) L); [lia|done].
    + rewrite Hbuf in Hsuf. apply suffix_nil_inv in Hsuf. subst kept.
      eexists _, evs. split; [done|]. simpl. split; [done|].
      by rewrite lookup_insert_eq.
Qed.

End StateFacts.

(** The table [{"A": 42}] is saved; after the restart a snapshot of [A]
    with sequence 42 leaves the buffer empty and one with sequence 43 puts
    one sample in it. *)
Lemma state_round_trip_dedups_replay_witness :
  let env := failing_env [] [] in
  let st := recorder_with small_config {["A" := VInt 42]} in
  let st0 := @startup example_runtime small_config (state_save env st empty_disk) in
  state_write_ok env = true
  ∧ last_sequence st = VInt <$> ({["A" := 42]} : gmap string Z)
  ∧ last_sequence st0 = {["A" := VInt 42]}
  ∧ @poll_source example_runtime small_config "2024-05-17T09:30:00+00:00" "A"
      (Fetched (snapshot_text "42")) st0 = Ok (st0, [])
  ∧ ∃ st1 evs,
      @poll_source example_runtime small_config "2024-05-17T09:30:00+00:00" "A"
        (Fetched (snapshot_text "43")) st0 = Ok (st1, evs)
      ∧ length (buffer st1) = 1%nat.
Proof.
  intros env st st0.
  assert (H1 : state_write_ok env = true) by reflexivity.
  assert (H2 : last_sequence st = VInt <$> ({["A" := 42]} : gmap string Z))
    by by_evaluation.
  split; [exact H1|]. split; [exact H2|].
  destruct (state_round_trip_dedups_replay (H:=example_runtime) small_config env
              {["A" := 42]} st empty_disk H1 H2) as (Hlast & _ & Hreplay).
  fold st0 in Hlast, Hreplay.
  split; [rewrite Hlast; by_evaluation|].
  split.
  - refine (proj1 (Hreplay "A" 42 "2024-05-17T09:30:00+00:00" (snapshot_text "42") 42
                     _ _ _) eq_refl); by_evaluation.
  - destruct (proj2 (Hreplay "A" 42 "2024-05-17T09:30:00+00:00" (snapshot_text "43") 43
                       ltac:(by_evaluation) ltac:(by_evaluation) ltac:(by_evaluation))
                eq_refl) as (st1 & evs & Hrun & Hbuf & _).
    exists st1, evs. split; [exact Hrun|]. by rewrite Hbuf.
Defined.

(** * Further properties of the recorder *)

(** ** One iteration of the fetch loop *)

Section PollFacts.
Context `{Runtime} (cfg : Config).

Lemma lstrip_all_space s : all_space s = true → lstrip_with py_isspace s = "".
Proof.
  induction s as [|c s IH]; simpl; [done|].
  intros [Hc Hs]%andb_prop. rewrite Hc. by apply IH.
Qed.

Lemma strip_all_space s : all_space s = true → strip s = "".
Proof.
  intros Hs. unfold strip, strip_with. rewrite (lstrip_all_space s) by done. reflexivity.
Qed.

(** The append to the buffer drops a prefix and adds the entry; the prefix
    is empty while the buffer is below the bound. *)
Lemma buffer_append_drop name buf parsed :
  ∃ k, (buffer_append cfg name buf parsed).1 = drop k buf ++ [parsed]
       ∧ (Z.of_nat (length buf) < MAX_BUFFER_SIZE cfg → k = 0%nat).
Proof.
  unfold buffer_append.
  destruct (Z.leb_spec (MAX_BUFFER_SIZE cfg) (Z.of_nat (length buf))); simpl.
  - eexists. split; [done|]. lia.
  - by exists 0%nat.
Qed.

Lemma record_parsed_other ts name parsed st other :
  other ≠ name →
  last_sequence (record_parsed cfg ts name parsed st).1 !! other = last_sequence st !! other
  ∧ per_source_backoff (record_parsed cfg ts name parsed st).1 !! other
    = per_source_backoff st !! other.
Proof.
  intros Hne. unfold record_parsed. destruct (is_new _ _ _); [|done].
  destruct (buffer_append _ _ _ _). simpl. by rewrite !lookup_insert_ne.
Qed.

(** The cases of one iteration. *)
Lemma poll_source_cases ts name r st st' evs :
  poll_source cfg ts name r st = Ok (st', evs) →
  (∃ e cur, r = Failed e ∧ per_source_backoff st !! name = Some cur
            ∧ st' = {| buffer := buffer st; last_sequence := last_sequence st;
                       per_source_backoff :=
                         <[name := py_min (cur * 2)%Q (BACKOFF_MAX cfg)]> (per_source_backoff st) |}
            ∧ evs = [Slept (py_min (cur * 2)%Q (BACKOFF_MAX cfg))])
  ∨ (∃ r_text, r = Fetched r_text ∧ strip r_text = "" ∧ st' = st ∧ evs = [])
  ∨ (∃ r_text, r = Fetched r_text ∧ strip r_text ≠ ""
               ∧ (st', evs) = record_parsed cfg ts name
                                (parsed_fields (strip r_text) (INCLUDE_CONDITION cfg)) st).
Proof.
  unfold poll_source, poll_try, on_fetch_error, catch_all.
  destruct r as [e|r_text].
  - destruct (per_source_backoff st !! name) as [cur|] eqn:Hcur; simpl; [|done].
    intros [= <- <-]. left. by exists e, cur.
  - case_bool_decide as Hbody.
    + intros [= <- <-]. right. left. by exists r_text.
    + rewrite extract_mtconnect_values_Ok. simpl. intros [= Hrec].
      right. right. exists r_text. by rewrite Hrec.
Qed.

(** X1. An iteration for one source never changes the last accepted
    sequence or the backoff delay of another source, whatever the outcome of
    the request. *)
Theorem poll_source_leaves_other_sources ts name r st st' evs other :
  poll_source cfg ts name r st = Ok (st', evs) →
  other ≠ name →
  last_sequence st' !! other = last_sequence st !! other
  ∧ per_source_backoff st' !! other = per_source_backoff st !! other.
Proof.
  intros Hrun Hne.
  destruct (poll_source_cases _ _ _ _ _ _ Hrun)
    as [(e & cur & -> & Hcur & -> & ->)|[(r_text & -> & _ & -> & ->)|(r_text & -> & _ & Hrec)]].
  - simpl. by rewrite lookup_insert_ne.
  - done.
  - pose proof (record_parsed_other ts name
      (parsed_fields (strip r_text) (INCLUDE_CONDITION cfg)) st other Hne) as Hframe.
    by rewrite <- Hrec in Hframe.
Qed.

(** X2. An iteration keeps the buffered samples in arrival order: the new
    buffer is the old one without some of its oldest entries (none while
    the buffer is below the bound), followed by at most one new sample,
    which carries the source name and the timestamp of the cycle. *)
Theorem poll_source_keeps_arrival_order ts name r st st' evs :
  poll_source cfg ts name r st = Ok (st', evs) →
  ∃ k new,
    buffer st' = drop k (buffer st) ++ new
    ∧ (new = []
       ∨ ∃ sample, new = [sample]
                   ∧ sample !! "machine" = Some (VStr name)
                   ∧ sample !! "timestamp" = Some (VStr ts))
    ∧ (Z.of_nat (length (buffer st)) < MAX_BUFFER_SIZE cfg → k = 0%nat).
Proof.
  intros Hrun.
  destruct (poll_source_cases _ _ _ _ _ _ Hrun)
    as [(e & cur & -> & Hcur & -> & ->)|[(r_text & -> & _ & -> & ->)|(r_text & -> & _ & Hrec)]].
  - exists 0%nat, []. simpl. rewrite app_nil_r. auto.
  - exists 0%nat, []. simpl. rewrite app_nil_r. auto.
  - revert Hrec. unfold record_parsed. destruct (is_new _ _ _).
    + match goal with |- context [buffer_append cfg name (buffer st) ?x] =>
        destruct (buffer_append_drop name (buffer st) x) as (k & Hbuf & Hk);
        destruct (buffer_append cfg name (buffer st) x) as [buf evs'];
        assert (Hm : x !! "machine" = Some (VStr name)) by apply lookup_insert_eq;
        assert (Ht : x !! "timestamp" = Some (VStr ts))
          by (by rewrite lookup_insert_ne, lookup_insert_eq);
        intros [= -> ->]; exists k, [x]
      end.
      simpl in *. split; [done|]. split; [|done]. right. eauto.
    + intros [= -> ->]. exists 0%nat, []. simpl. rewrite app_nil_r. auto.
Qed.

(** X3. A body that is not blank and not well-formed XML is not a fetch
    failure: it is recorded as a sample that holds nothing but the previous
    sequence of the source (or -1), the timestamp and the source name, and
    the backoff delay of the source is reset. *)
Theorem unparsable_body_recorded_as_heartbeat ts name r_text st e :
  strip r_text ≠ "" →
  fromstring (strip r_text) = Raise e →
  let prev := dict_get_default (last_sequence st) name (VInt (-1)) in
  ∃ st' evs,
    poll_source cfg ts name (Fetched r_text) st = Ok (st', evs)
    ∧ last (buffer st') = Some (stamped ts name {["sequence" := prev]})
    ∧ last_sequence st' !! name = Some prev
    ∧ per_source_backoff st' !! name = Some (BACKOFF_INITIAL cfg).
Proof.
  intros Hbody Hraise prev. rewrite poll_source_fetched by done.
  rewrite (parsed_fields_unparsable _ _ e Hraise).
  destruct (record_parsed_heartbeat cfg ts name ∅ st) as (kept & evs & _ & ->); [done|].
  eexists _, evs. split; [done|]. simpl. rewrite last_snoc, insert_empty.
  by rewrite !lookup_insert_eq.
Qed.

(** X4. A response whose text is empty or white space only changes
    nothing: no sample, no table entry, no delay, no sleep. *)
Theorem blank_body_changes_nothing ts name r_text st :
  all_space r_text = true →
  poll_source cfg ts name (Fetched r_text) st = Ok (st, []).
Proof.
  intros Hblank. unfold poll_source, poll_try, catch_all.
  rewrite (strip_all_space _ Hblank). by rewrite bool_decide_eq_true_2.
Qed.

(** X5. The same snapshot delivered twice in a row is recorded at most
    once: after an iteration on a document whose sequence is an integer, a
    second iteration on the same document changes nothing. *)
Theorem same_snapshot_twice_recorded_once ts1 ts2 name r_text st st1 evs1 (s : Z) :
  strip r_text ≠ "" →
  parsed_fields (strip r_text) (INCLUDE_CONDITION cfg) !! "sequence" = Some (VInt s) →
  poll_source cfg ts1 name (Fetched r_text) st = Ok (st1, evs1) →
  poll_source cfg ts2 name (Fetched r_text) st1 = Ok (st1, []).
Proof.
  intros Hbody Hs. rewrite !poll_source_fetched by done. intros [= Hfirst]. f_equal.
  assert (Hget : dict_get (parsed_fields (strip r_text) (INCLUDE_CONDITION cfg)) "sequence"
                 = VInt s) by (unfold dict_get; by rewrite Hs).
  destruct (py_ne (VInt s) (dict_get (last_sequence st) name)) eqn:Hne.
  - destruct (record_parsed_accept cfg ts1 name _ st (VInt s) Hs eq_refl Hne)
      as (kept & evs & _ & Hacc).
    rewrite Hacc in Hfirst. injection Hfirst as <- <-.
    apply (record_parsed_reject cfg ts2 name _ _ (VInt s)); [done..|].
    simpl. unfold dict_get. rewrite lookup_insert_eq. simpl.
    unfold py_ne. simpl. by rewrite Z.eqb_refl.
  - rewrite (record_parsed_reject cfg ts1 name _ st (VInt s) Hs eq_refl Hne) in Hfirst.
    injection Hfirst as <- <-.
    by apply (record_parsed_reject cfg ts2 name _ st (VInt s)).
Qed.

End PollFacts.

(** A failure of QuickTurn leaves the delay of VTC at its minimum. *)
Lemma poll_source_leaves_other_sources_witness :
  let st := initial_recorder recorder_config in
  ∃ st' evs,
    @poll_source example_runtime recorder_config "2024-05-17T09:30:00+00:00" "QuickTurn"
      (Failed RequestException) st = Ok (st', evs)
    ∧ "VTC" ≠ "QuickTurn"
    ∧ per_source_backoff st' !! "VTC" = Some (BACKOFF_INITIAL recorder_config).
Proof.
  intros st.
  destruct (@poll_source example_runtime recorder_config "2024-05-17T09:30:00+00:00"
              "QuickTurn" (Failed RequestException) st) as [[st' evs]|e] eqn:Hrun;
    [|vm_compute in Hrun; discriminate].
  assert (Hne : "VTC" ≠ "QuickTurn") by discriminate.
  exists st', evs. split; [reflexivity|]. split; [exact Hne|].
  destruct (poll_source_leaves_other_sources (H:=example_runtime) recorder_config
              _ _ _ _ _ _ "VTC" Hrun Hne) as [_ ->].
  by_evaluation.
Defined.

(** With a bound of 3 and three samples buffered, an accepted snapshot
    drops the oldest sample and comes last. *)
Lemma poll_source_keeps_arrival_order_witness :
  let st := with_buffer [bare_sample 1; bare_sample 2; bare_sample 3]
              (initial_recorder small_config) in
  ∃ st' evs,
    @poll_source example_runtime small_config "2024-05-17T09:30:00+00:00" "A"
      (Fetched (snapshot_text "101")) st = Ok (st', evs)
    ∧ ∃ k new, buffer st' = drop k (buffer st) ++ new ∧ length (buffer st') = 3%nat.
Proof.
  intros st.
  destruct (@poll_source example_runtime small_config "2024-05-17T09:30:00+00:00" "A"
              (Fetched (snapshot_text "101")) st) as [[st' evs]|e] eqn:Hrun;
    [|vm_compute in Hrun; discriminate].
  exists st', evs. split; [reflexivity|].
  destruct (poll_source_keeps_arrival_order (H:=example_runtime) small_config
              _ _ _ _ _ _ Hrun) as (k & new & Hbuf & _ & _).
  exists k, new. split; [exact Hbuf|].
  vm_compute in Hrun. injection Hrun as <- _. reflexivity.
Defined.

(** A truncated response after sequence 100 is recorded with sequence
    100. *)
Lemma unparsable_body_recorded_as_heartbeat_witness :
  let st := recorder_with recorder_config {["QuickTurn" := VInt 100]} in
  strip truncated_text ≠ ""
  ∧ @fromstring example_runtime (strip truncated_text) = Raise ParseError
  ∧ ∃ st' evs,
      @poll_source example_runtime recorder_config "2024-05-17T09:30:00+00:00" "QuickTurn"
        (Fetched truncated_text) st = Ok (st', evs)
      ∧ last (buffer st')
        = Some (stamped "2024-05-17T09:30:00+00:00" "QuickTurn" {["sequence" := VInt 100]}).
Proof.
  intros st.
  assert (H1 : strip truncated_text ≠ "") by by_evaluation.
  assert (H2 : @fromstring example_runtime (strip truncated_text) = Raise ParseError)
    by by_evaluation.
  split; [exact H1|]. split; [exact H2|].
  destruct (unparsable_body_recorded_as_heartbeat (H:=example_runtime) recorder_config
              "2024-05-17T09:30:00+00:00" "QuickTurn" truncated_text st ParseError H1 H2)
    as (st' & evs & Hrun & Hlast & _).
  exists st', evs. split; [exact Hrun|]. exact Hlast.
Defined.

Lemma blank_body_changes_nothing_witness :
  let st := recorder_with recorder_config {["QuickTurn" := VInt 100]} in
  all_space "    " = true
  ∧ @poll_source example_runtime recorder_config "2024-05-17T09:30:00+00:00" "QuickTurn"
      (Fetched "    ") st = Ok (st, []).
Proof.
  intros st. assert (H1 : all_space "    " = true) by reflexivity.
  split; [exact H1|].
  exact (blank_body_changes_nothing (H:=example_runtime) recorder_config
           "2024-05-17T09:30:00+00:00" "QuickTurn" "    " st H1).
Defined.

(** Sequence 101 after 100: the first delivery is buffered, the second is
    not. *)
Lemma same_snapshot_twice_recorded_once_witness :
  let st := recorder_with recorder_config {["QuickTurn" := VInt 100]} in
  strip (snapshot_text "101") ≠ ""
  ∧ @parsed_fields example_runtime (strip (snapshot_text "101"))
      (INCLUDE_CONDITION recorder_config) !! "sequence" = Some (VInt 101)
  ∧ ∃ st1 evs1,
      @poll_source example_runtime recorder_config "2024-05-17T09:30:00+00:00" "QuickTurn"
        (Fetched (snapshot_text "101")) st = Ok (st1, evs1)
      ∧ length (buffer st1) = 1%nat
      ∧ @poll_source example_runtime recorder_config "2024-05-17T09:30:00.200000+00:00"
          "QuickTurn" (Fetched (snapshot_text "101")) st1 = Ok (st1, []).
Proof.
  intros st.
  assert (H1 : strip (snapshot_text "101") ≠ "") by by_evaluation.
  assert (H2 : @parsed_fields example_runtime (strip (snapshot_text "101"))
                 (INCLUDE_CONDITION recorder_config) !! "sequence" = Some (VInt 101))
    by by_evaluation.
  split; [exact H1|]. split; [exact H2|].
  destruct (@poll_source example_runtime recorder_config "2024-05-17T09:30:00+00:00"
              "QuickTurn" (Fetched (snapshot_text "101")) st) as [[st1 evs1]|e] eqn:Hrun;
    [|vm_compute in Hrun; discriminate].
  exists st1, evs1. split; [reflexivity|]. split.
  - vm_compute in Hrun. injection Hrun as <- _. reflexivity.
  - exact (same_snapshot_twice_recorded_once (H:=example_runtime) recorder_config
             _ "2024-05-17T09:30:00.200000+00:00" _ _ _ _ _ 101 H1 H2 Hrun).
Defined.

(** ** Backoff over many iterations *)

Section BackoffRuns.
Context `{Runtime} (cfg : Config).
Local Open Scope Q_scope.

Lemma poll_many_app polls1 : ∀ polls2 st,
  poll_many cfg (polls1 ++ polls2) st
  = '(st1, evs1) ← poll_many cfg polls1 st;
    '(st2, evs2) ← poll_many cfg polls2 st1;
    Ok (st2, evs1 ++ evs2).
Proof.
  induction polls1 as [|[[ts name] r] rest IH]; intros polls2 st; simpl.
  - destruct (poll_many cfg polls2 st) as [[st2 evs2]|]; simpl; done.
  - destruct (poll_source cfg ts name r st) as [[st1 evs1]|]; simpl; [|done].
    rewrite IH. destruct (poll_many cfg rest st1) as [[st2 evs2]|]; simpl; [|done].
    destruct (poll_many cfg polls2 st2) as [[st3 evs3]|]; simpl; [|done].
    by rewrite app_assoc.
Qed.

(** One more doubling of a delay that is a capped multiple of [x]. *)
Lemma py_min_step w x cap :
  0 <= cap → w == Qmin x cap → py_min (w * 2) cap == Qmin (2 * x) cap.
Proof.
  intros Hcap Hw. rewrite py_min_Qmin.
  destruct (Q.min_spec x cap) as [[? Hx]|[? Hx]]; rewrite Hx in Hw;
    destruct (Q.min_spec (2 * x) cap) as [[? ->]|[? ->]];
    destruct (Q.min_spec (w * 2) cap) as [[? ->]|[? ->]]; lra.
Qed.

(** X6. After [k + 1] failed requests in a row for a source whose delay
    was [x], with a cap [D ≥ 0], the delay of the source is
    [min(2^(k+1) * x, D)]; that is also the last sleep, one sleep was made
    per failure, and neither the buffer nor the table of sequences
    changed. *)
Theorem backoff_after_failures ts name e (k : nat) : ∀ st x,
  0 <= BACKOFF_MAX cfg →
  per_source_backoff st !! name = Some x →
  ∃ st' evs w,
    poll_many cfg (replicate (S k) (ts, name, Failed e)) st = Ok (st', evs)
    ∧ per_source_backoff st' !! name = Some w
    ∧ w == Qmin (inject_Z (2 ^ Z.of_nat (S k)) * x) (BACKOFF_MAX cfg)
    ∧ length evs = S k
    ∧ last evs = Some (Slept w)
    ∧ buffer st' = buffer st
    ∧ last_sequence st' = last_sequence st.
Proof.
  induction k as [|k IH]; intros st x Hcap Hx.
  - simpl replicate. unfold poll_many.
    rewrite (poll_source_failed cfg ts name e st x Hx). simpl.
    eexists _, _, _. split; [reflexivity|]. simpl.
    split; [apply lookup_insert_eq|]. split; [|done].
    rewrite py_min_Qmin. apply Q.min_compat; [|reflexivity].
    replace (inject_Z (2 ^ Z.of_nat 1)) with 2 by reflexivity. ring.
  - destruct (IH st x Hcap Hx) as (st1 & evs1 & w1 & Hrun & Hw1 & Heq & Hlen & _ & Hbuf & Hseq).
    rewrite (replicate_S_end (S k)), poll_many_app, Hrun. simpl.
    rewrite (poll_source_failed cfg ts name e st1 w1 Hw1). simpl.
    eexists _, _, _. split; [reflexivity|]. simpl.
    split; [apply lookup_insert_eq|].
    split; [|split; [|split; [|done]]].
    + rewrite (py_min_step w1 _ _ Hcap Heq). apply Q.min_compat; [|reflexivity].
      rewrite (Nat2Z.inj_succ (S k)), Z.pow_succ_r by lia.
      rewrite inject_Z_mult. change (inject_Z 2) with 2. ring.
    + rewrite length_app. simpl. lia.
    + by rewrite last_snoc.
Qed.

(** What an accepted or rejected snapshot does to the delays and to the
    trace. *)
Lemma record_parsed_delay ts name parsed st n x :
  per_source_backoff (record_parsed cfg ts name parsed st).1 !! n = Some x →
  x = BACKOFF_INITIAL cfg ∨ per_source_backoff st !! n = Some x.
Proof.
  unfold record_parsed. destruct (is_new _ _ _); [|auto].
  destruct (buffer_append _ _ _ _). simpl.
  destruct (decide (n = name)) as [->|Hne].
  - rewrite lookup_insert_eq. intros [= <-]. auto.
  - rewrite lookup_insert_ne by done. auto.
Qed.

Lemma record_parsed_no_sleep ts name parsed st w :
  Slept w ∉ (record_parsed cfg ts name parsed st).2.
Proof.
  unfold record_parsed. destruct (is_new _ _ _); [|apply not_elem_of_nil].
  unfold buffer_append. destruct (_ <=? _)%Z; simpl.
  - intros Hin. apply list_elem_of_singleton in Hin. done.
  - apply not_elem_of_nil.
Qed.

Lemma poll_source_delay_bounds ts name r st st' evs :
  0 <= BACKOFF_INITIAL cfg →
  BACKOFF_INITIAL cfg <= BACKOFF_MAX cfg →
  (∀ n x, per_source_backoff st !! n = Some x →
          BACKOFF_INITIAL cfg <= x ∧ x <= BACKOFF_MAX cfg) →
  poll_source cfg ts name r st = Ok (st', evs) →
  (∀ n x, per_source_backoff st' !! n = Some x →
          BACKOFF_INITIAL cfg <= x ∧ x <= BACKOFF_MAX cfg)
  ∧ (∀ w, Slept w ∈ evs → BACKOFF_INITIAL cfg <= w ∧ w <= BACKOFF_MAX cfg).
Proof.
  intros Hd HdD Hinv Hrun.
  destruct (poll_source_cases cfg _ _ _ _ _ _ Hrun)
    as [(e & cur & -> & Hcur & -> & ->)|[(r_text & -> & _ & -> & ->)|(r_text & -> & _ & Hrec)]].
  - destruct (Hinv name cur Hcur) as [Hlo Hhi].
    assert (Hnew : BACKOFF_INITIAL cfg <= py_min (cur * 2) (BACKOFF_MAX cfg)
                   ∧ py_min (cur * 2) (BACKOFF_MAX cfg) <= BACKOFF_MAX cfg).
    { unfold py_min. destruct (Qlt_le_dec _ _); split; lra. }
    split.
    + intros n x. simpl. destruct (decide (n = name)) as [->|Hne].
      * rewrite lookup_insert_eq. by intros [= <-].
      * rewrite lookup_insert_ne by done. apply Hinv.
    + intros w Hin. apply list_elem_of_singleton in Hin. by injection Hin as ->.
  - split; [done|]. intros w Hin. by apply not_elem_of_nil in Hin.
  - split.
    + intros n x Hx. replace st' with (st', evs).1 in Hx by done. rewrite Hrec in Hx.
      destruct (record_parsed_delay _ _ _ _ _ _ Hx) as [->|Hold]; [lra|by eapply Hinv].
    + intros w Hin. replace evs with (st', evs).2 in Hin by done. rewrite Hrec in Hin.
      by apply record_parsed_no_sleep in Hin.
Qed.

(** X7. With [0 ≤ BACKOFF_INITIAL ≤ BACKOFF_MAX], if every stored delay
    lies between the two, then after any run of iterations every stored
    delay still does, and so does every sleep of the run: the poller never
    sleeps longer than [BACKOFF_MAX] on a failure. *)
Theorem backoff_delays_stay_within_bounds polls : ∀ st st' evs,
  0 <= BACKOFF_INITIAL cfg →
  BACKOFF_INITIAL cfg <= BACKOFF_MAX cfg →
  (∀ n x, per_source_backoff st !! n = Some x →
          BACKOFF_INITIAL cfg <= x ∧ x <= BACKOFF_MAX cfg) →
  poll_many cfg polls st = Ok (st', evs) →
  (∀ n x, per_source_backoff st' !! n = Some x →
          BACKOFF_INITIAL cfg <= x ∧ x <= BACKOFF_MAX cfg)
  ∧ (∀ w, Slept w ∈ evs → BACKOFF_INITIAL cfg <= w ∧ w <= BACKOFF_MAX cfg).
Proof.
  induction polls as [|[[ts name] r] rest IH]; intros st st' evs Hd HdD Hinv; simpl.
  - intros [= <- <-]. split; [done|]. intros w Hin. by apply not_elem_of_nil in Hin.
  - destruct (poll_source cfg ts name r st) as [[st1 evs1]|] eqn:Hstep; simpl; [|done].
    destruct (poll_many cfg rest st1) as [[st2 evs2]|] eqn:Hrest; simpl; [|done].
    intros [= <- <-].
    destruct (poll_source_delay_bounds _ _ _ _ _ _ Hd HdD Hinv Hstep) as [Hinv1 Hev1].
    destruct (IH _ _ _ Hd HdD Hinv1 Hrest) as [Hinv2 Hev2].
    split; [done|]. intros w Hin. apply elem_of_app in Hin as [Hin|Hin]; auto.
Qed.

End BackoffRuns.

Section ConfiguredSources.
Context `{Runtime} (cfg : Config).

Lemma initial_backoff_lookup name :
  name ∈ source_names cfg ↔ is_Some (per_source_backoff (initial_recorder cfg) !! name).
Proof.
  unfold initial_recorder, source_names. simpl. split.
  - intros Hin.
    destruct (list_to_map ((λ s, (s.1, BACKOFF_INITIAL cfg)) <$> SOURCES cfg) !! name)
      as [x|] eqn:Hx; [by eexists|].
    apply not_elem_of_list_to_map in Hx. destruct Hx.
    rewrite <- list_fmap_compose. exact Hin.
  - intros [x Hx%elem_of_list_to_map_2].
    apply list_elem_of_fmap in Hx as (s & [= -> _] & Hs).
    apply list_elem_of_fmap. by exists s.
Qed.

Lemma initial_backoff_value name x :
  per_source_backoff (initial_recorder cfg) !! name = Some x → x = BACKOFF_INITIAL cfg.
Proof.
  unfold initial_recorder. simpl. intros Hx%elem_of_list_to_map_2.
  apply list_elem_of_fmap in Hx as (s & [= _ ->] & _). done.
Qed.

Lemma poll_source_keeps_entries ts name r st st' evs n :
  poll_source cfg ts name r st = Ok (st', evs) →
  is_Some (per_source_backoff st !! n) →
  is_Some (per_source_backoff st' !! n).
Proof.
  intros Hrun Hn.
  destruct (poll_source_cases cfg _ _ _ _ _ _ Hrun)
    as [(e & cur & -> & Hcur & -> & ->)|[(r_text & -> & _ & -> & ->)|(r_text & -> & _ & Hrec)]].
  - simpl. destruct (decide (n = name)) as [->|Hne].
    + rewrite lookup_insert_eq. by eexists.
    + by rewrite lookup_insert_ne.
  - done.
  - replace st' with (st', evs).1 by done. rewrite Hrec.
    unfold record_parsed. destruct (is_new _ _ _); [|done].
    destruct (buffer_append _ _ _ _). simpl. destruct (decide (n = name)) as [->|Hne].
    + rewrite lookup_insert_eq. by eexists.
    + by rewrite lookup_insert_ne.
Qed.

Lemma poll_source_returns ts name r st :
  is_Some (per_source_backoff st !! name) →
  ∃ st' evs, poll_source cfg ts name r st = Ok (st', evs).
Proof.
  intros [cur Hcur]. destruct r as [e|r_text].
  - rewrite (poll_source_failed cfg ts name e st cur Hcur). by eexists _, _.
  - unfold poll_source, poll_try, catch_all. case_bool_decide; [by eexists _, _|].
    rewrite extract_mtconnect_values_Ok. simpl.
    destruct (record_parsed _ _ _ _ _) as [st' evs]. by eexists _, _.
Qed.

Lemma poll_many_returns polls : ∀ st,
  Forall (λ p, is_Some (per_source_backoff st !! p.1.2)) polls →
  ∃ st' evs, poll_many cfg polls st = Ok (st', evs).
Proof.
  induction polls as [|[[ts name] r] rest IH]; intros st Hall; simpl.
  - by eexists _, _.
  - inversion Hall as [|? ? Hname Hrest]; subst. simpl in Hname.
    destruct (poll_source_returns ts name r st Hname) as (st1 & evs1 & Hstep).
    rewrite Hstep. simpl.
    destruct (IH st1) as (st2 & evs2 & Hrun).
    { eapply Forall_impl; [exact Hrest|]. intros p Hp.
      by eapply poll_source_keeps_entries. }
    rewrite Hrun. simpl. by eexists _, _.
Qed.

(** X8. The handler of the fetch loop reads [per_source_backoff[name]]
    without a default.  Started from the initial globals, no run of
    iterations over configured sources raises, whatever the requests
    return; a failed request for a name without an entry raises
    [KeyError] out of the iteration. *)
Theorem configured_sources_never_raise polls :
  Forall (λ p, p.1.2 ∈ source_names cfg) polls →
  (∃ st' evs, poll_many cfg polls (initial_recorder cfg) = Ok (st', evs))
  ∧ (∀ ts name e st, per_source_backoff st !! name = None →
                     poll_source cfg ts name (Failed e) st = Raise KeyError).
Proof.
  intros Hall. split.
  - apply poll_many_returns. eapply Forall_impl; [exact Hall|].
    intros p Hp. by apply initial_backoff_lookup.
  - intros ts name e st Hnone.
    unfold poll_source, poll_try, on_fetch_error, catch_all. by rewrite Hnone.
Qed.

End ConfiguredSources.

(** Five failures in a row with the delays of the source: the delay is at
    the cap of 8 s. *)
Lemma backoff_after_failures_witness :
  let st := initial_recorder recorder_config in
  (0 <= BACKOFF_MAX recorder_config)%Q
  ∧ per_source_backoff st !! "IG500" = Some (BACKOFF_INITIAL recorder_config)
  ∧ ∃ st' evs w,
      @poll_many example_runtime recorder_config
        (replicate 5 ("2024-05-17T09:30:00+00:00", "IG500", Failed RequestException)) st
      = Ok (st', evs)
      ∧ per_source_backoff st' !! "IG500" = Some w ∧ (w == 8)%Q.
Proof.
  intros st.
  assert (H1 : (0 <= BACKOFF_MAX recorder_config)%Q) by (unfold Qle; simpl; lia).
  assert (H2 : per_source_backoff st !! "IG500" = Some (BACKOFF_INITIAL recorder_config))
    by by_evaluation.
  split; [exact H1|]. split; [exact H2|].
  destruct (backoff_after_failures (H:=example_runtime) recorder_config
              "2024-05-17T09:30:00+00:00" "IG500" RequestException 4 st _ H1 H2)
    as (st' & evs & w & Hrun & Hw & Heq & _).
  exists st', evs, w. split; [exact Hrun|]. split; [exact Hw|].
  rewrite Heq. by_evaluation.
Defined.

Lemma initial_delays_within_bounds :
  ∀ n x, per_source_backoff (initial_recorder recorder_config) !! n = Some x →
         (BACKOFF_INITIAL recorder_config <= x ∧ x <= BACKOFF_MAX recorder_config)%Q.
Proof.
  intros n x Hx. apply initial_backoff_value in Hx. subst x.
  split; unfold Qle; simpl; lia.
Defined.

(** Three failures of QuickTurn: no sleep exceeds 8 s. *)
Lemma backoff_delays_stay_within_bounds_witness :
  let st := initial_recorder recorder_config in
  (0 <= BACKOFF_INITIAL recorder_config)%Q
  ∧ (BACKOFF_INITIAL recorder_config <= BACKOFF_MAX recorder_config)%Q
  ∧ ∃ st' evs,
      @poll_many example_runtime recorder_config (three_failures "QuickTurn") st
      = Ok (st', evs)
      ∧ ∀ w, Slept w ∈ evs → (w <= 8)%Q.
Proof.
  intros st.
  assert (H1 : (0 <= BACKOFF_INITIAL recorder_config)%Q) by (unfold Qle; simpl; lia).
  assert (H2 : (BACKOFF_INITIAL recorder_config <= BACKOFF_MAX recorder_config)%Q)
    by (unfold Qle; simpl; lia).
  split; [exact H1|]. split; [exact H2|].
  destruct (@poll_many example_runtime recorder_config (three_failures "QuickTurn") st)
    as [[st' evs]|e] eqn:Hrun; [|vm_compute in Hrun; discriminate].
  exists st', evs. split; [reflexivity|].
  destruct (backoff_delays_stay_within_bounds (H:=example_runtime) recorder_config
              _ _ _ _ H1 H2 initial_delays_within_bounds Hrun) as [_ Hsleeps].
  intros w Hin. exact (proj2 (Hsleeps w Hin)).
Defined.

(** Three failures of the configured source VTC return. *)
Lemma configured_sources_never_raise_witness :
  Forall (λ p, p.1.2 ∈ source_names recorder_config) (three_failures "VTC")
  ∧ ∃ st' evs,
      @poll_many example_runtime recorder_config (three_failures "VTC")
        (initial_recorder recorder_config) = Ok (st', evs).
Proof.
  assert (H1 : Forall (λ p, p.1.2 ∈ source_names recorder_config) (three_failures "VTC")).
  { repeat (apply Forall_cons_2; [simpl; repeat constructor|]). apply Forall_nil_2. }
  split; [exact H1|].
  exact (proj1 (configured_sources_never_raise (H:=example_runtime) recorder_config
                  (three_failures "VTC") H1)).
Defined.

(** ** The samples in the buffer *)

Section SampleFacts.
Context `{Runtime} (cfg : Config).

Lemma record_parsed_fields ts name parsed st :
  Forall has_mandatory_fields (buffer st) →
  Forall has_mandatory_fields (buffer (record_parsed cfg ts name parsed st).1).
Proof.
  intros Hall. unfold record_parsed. destruct (is_new _ _ _) eqn:Hnew; [|done].
  match goal with |- context [buffer_append cfg name (buffer st) ?x] =>
    destruct (buffer_append_suffix cfg name (buffer st) x) as (kept & [old Hold] & Hbuf);
    destruct (buffer_append cfg name (buffer st) x) as [buf evs];
    assert (Hx : has_mandatory_fields x)
  end.
  { split.
    - exists name, ts. split; [by rewrite lookup_insert_eq|].
      by rewrite lookup_insert_ne, lookup_insert_eq.
    - rewrite !lookup_insert_ne by done.
      unfold dict_get. destruct (parsed !! "sequence") as [seq|] eqn:Hseq; simpl.
      + destruct (is_None seq); [rewrite lookup_insert_eq|rewrite Hseq]; by eexists.
      + rewrite lookup_insert_eq. by eexists. }
  simpl in *. subst buf. rewrite Hold in Hall.
  apply Forall_app in Hall as [_ Hkept]. apply Forall_app. split; [done|].
  by apply Forall_singleton.
Qed.

Lemma poll_many_mandatory_fields polls : ∀ st st' evs,
  Forall has_mandatory_fields (buffer st) →
  poll_many cfg polls st = Ok (st', evs) →
  Forall has_mandatory_fields (buffer st').
Proof.
  induction polls as [|[[ts name] r] rest IH]; intros st st' evs Hall; simpl.
  - by intros [= <- <-].
  - destruct (poll_source cfg ts name r st) as [[st1 evs1]|] eqn:Hstep; simpl; [|done].
    destruct (poll_many cfg rest st1) as [[st2 evs2]|] eqn:Hrest; simpl; [|done].
    intros [= <- <-]. eapply IH; [|done].
    destruct (poll_source_cases cfg _ _ _ _ _ _ Hstep)
      as [(e & cur & -> & Hcur & -> & ->)|[(r_text & -> & _ & -> & ->)|(r_text & -> & _ & Hrec)]];
      [done..|].
    replace st1 with (st1, evs1).1 by done. rewrite Hrec.
    by apply record_parsed_fields.
Qed.

(** X9. Every sample the fetch loop buffers has its mandatory fields: from a
    buffer whose entries all have a machine and a timestamp that are
    strings and a sequence (the empty buffer of the start, for one), every
    run of iterations leads to such a buffer, whatever the documents
    held. *)
Theorem buffered_samples_have_mandatory_fields polls st st' evs :
  Forall has_mandatory_fields (buffer st) →
  poll_many cfg polls st = Ok (st', evs) →
  Forall has_mandatory_fields (buffer st')
  ∧ (∀ entry, entry ∈ buffer st' →
       ∃ machine ts seq, entry !! "machine" = Some (VStr machine)
                         ∧ entry !! "timestamp" = Some (VStr ts)
                         ∧ entry !! "sequence" = Some seq).
Proof.
  intros Hall Hrun.
  pose proof (poll_many_mandatory_fields polls st st' evs Hall Hrun) as Hall'.
  split; [done|]. intros entry Hin.
  destruct (proj1 (Forall_forall _ _) Hall' entry Hin) as [(machine & ts & Hm & Ht) [seq Hseq]].
  by exists machine, ts, seq.
Qed.

End SampleFacts.

(** A document with fields, a document without a sequence and a truncated
    response, polled from the initial globals. *)
Lemma buffered_samples_have_mandatory_fields_witness :
  let st := initial_recorder recorder_config in
  let polls := [ ("2024-05-17T09:30:00+00:00", "QuickTurn", Fetched (snapshot_text "101"));
                 ("2024-05-17T09:30:00+00:00", "IG500", Fetched (streams_text ""));
                 ("2024-05-17T09:30:00+00:00", "VTC", Fetched truncated_text) ] in
  Forall has_mandatory_fields (buffer st)
  ∧ ∃ st' evs,
      @poll_many example_runtime recorder_config polls st = Ok (st', evs)
      ∧ length (buffer st') = 3%nat
      ∧ Forall has_mandatory_fields (buffer st').
Proof.
  intros st polls.
  assert (H1 : Forall has_mandatory_fields (buffer st)) by apply Forall_nil_2.
  split; [exact H1|].
  destruct (@poll_many example_runtime recorder_config polls st)
    as [[st' evs]|e] eqn:Hrun; [|vm_compute in Hrun; discriminate].
  exists st', evs. split; [reflexivity|]. split.
  - vm_compute in Hrun. injection Hrun as <- _. reflexivity.
  - exact (proj1 (buffered_samples_have_mandatory_fields (H:=example_runtime)
                    recorder_config polls st st' evs H1 Hrun)).
Defined.

(** ** More on the snapshot parser *)

Section ExtractMore.
Context `{Runtime}.

Lemma foldl_store_condition_last out before c after :
  Forall (λ e, field_key e ≠ field_key c) after →
  foldl store_condition out (before ++ c :: after) !! field_key c
  = Some (VStr (split_last "}" (tag c))).
Proof.
  intros Hafter. rewrite foldl_app. simpl.
  rewrite foldl_store_condition_other by done.
  unfold store_condition. by rewrite lookup_insert_eq.
Qed.

(** X10. With the flag set, each child of a [Condition] element is stored
    under its key with its local tag name (the status) as value, replacing
    what a sample or event stored under the same key, unless a later child
    has the same key; a key no such child has gets the same value with and
    without the flag. *)
Theorem parser_stores_condition_status xml_text root out0 before c after :
  fromstring xml_text = Ok root →
  store_sequence root ∅ = Ok out0 →
  condition_items root = before ++ c :: after →
  Forall (λ e, field_key e ≠ field_key c) after →
  parsed_fields xml_text true !! field_key c = Some (VStr (split_last "}" (tag c)))
  ∧ ∀ k, Forall (λ e, field_key e ≠ k) (condition_items root) →
         parsed_fields xml_text true !! k = parsed_fields xml_text false !! k.
Proof.
  intros Hroot Hseq Hitems Hafter.
  rewrite !(parsed_fields_parsed _ _ root out0) by done. simpl.
  fold (condition_items root). split.
  - rewrite Hitems. by apply foldl_store_condition_last.
  - intros k Hk. by apply foldl_store_condition_other.
Qed.

Lemma foldl_store_item_key k items : ∀ out,
  is_Some (foldl store_item out items !! k) →
  is_Some (out !! k) ∨ ∃ el, el ∈ items ∧ field_key el = k.
Proof.
  induction items as [|e items IH]; intros out; simpl; [auto|].
  intros [Hin|(el & Hel & Hkey)]%IH.
  - unfold store_item in Hin. destruct (decide (field_key e = k)) as [<-|Hne].
    + right. exists e. split; [apply list_elem_of_here|done].
    + rewrite lookup_insert_ne in Hin by done. auto.
  - right. exists el. split; [by apply list_elem_of_further|done].
Qed.

Lemma foldl_store_condition_key k items : ∀ out,
  is_Some (foldl store_condition out items !! k) →
  is_Some (out !! k) ∨ ∃ el, el ∈ items ∧ field_key el = k.
Proof.
  induction items as [|e items IH]; intros out; simpl; [auto|].
  intros [Hin|(el & Hel & Hkey)]%IH.
  - unfold store_condition in Hin. destruct (decide (field_key e = k)) as [<-|Hne].
    + right. exists e. split; [apply list_elem_of_here|done].
    + rewrite lookup_insert_ne in Hin by done. auto.
  - right. exists el. split; [by apply list_elem_of_further|done].
Qed.

Lemma store_sequence_key root out0 k :
  store_sequence root ∅ = Ok out0 → is_Some (out0 !! k) → k = "sequence".
Proof.
  unfold store_sequence.
  destruct (find root (q root "Header")) as [header|]; [|by intros [= <-] [? ?]].
  destruct (attrib header !! "lastSequence") as [seq|]; [|by intros [= <-] [? ?]].
  destruct (py_int seq) as [n|]; simpl; [|done].
  intros [= <-]. destruct (decide (k = "sequence")) as [->|Hne]; [done|].
  rewrite lookup_insert_ne by done. by intros [? ?].
Qed.

(** X11. The parser invents no key: every key of the mapping it returns is
    ["sequence"] or the key of a child of a [Samples] or [Events] element
    of the parsed document or, with the flag set, of a child of a
    [Condition] element. *)
Theorem parser_keys_come_from_the_document xml_text include_condition k :
  is_Some (parsed_fields xml_text include_condition !! k) →
  k = "sequence"
  ∨ ∃ root el,
      fromstring xml_text = Ok root
      ∧ field_key el = k
      ∧ (el ∈ data_items root
         ∨ (include_condition = true ∧ el ∈ condition_items root)).
Proof.
  destruct (fromstring xml_text) as [root|e] eqn:Hroot.
  - destruct (store_sequence root ∅) as [out0|e] eqn:Hseq.
    + rewrite (parsed_fields_parsed _ _ root out0) by done. simpl.
      destruct include_condition.
      * intros [[Hin|(el & Hel & Hkey)]%foldl_store_item_key|(el & Hel & Hkey)]
          %foldl_store_condition_key.
        -- left. by eapply store_sequence_key.
        -- right. exists root, el. auto.
        -- right. exists root, el. auto.
      * intros [Hin|(el & Hel & Hkey)]%foldl_store_item_key.
        -- left. by eapply store_sequence_key.
        -- right. exists root, el. auto.
    + rewrite (parsed_fields_bad_sequence _ _ root e) by done. by intros [? ?].
  - rewrite (parsed_fields_unparsable _ _ e) by done. by intros [? ?].
Qed.

(** X12. The sequence of a snapshot is the [lastSequence] attribute of the
    first [Header] element below the root, read as an integer, provided no
    child of a section is itself stored under the key ["sequence"]; such a
    child would replace it. *)
Theorem parser_exposes_header_sequence xml_text include_condition root header seq n :
  fromstring xml_text = Ok root →
  find root (q root "Header") = Some header →
  attrib header !! "lastSequence" = Some seq →
  py_int seq = Some n →
  Forall (λ e, field_key e ≠ "sequence") (data_items root) →
  (include_condition = true →
   Forall (λ e, field_key e ≠ "sequence") (condition_items root)) →
  parsed_fields xml_text include_condition !! "sequence" = Some (VInt n).
Proof.
  intros Hroot Hheader Hattr Hint Hitems Hcond.
  assert (Hseq : store_sequence root ∅ = Ok {["sequence" := VInt n]}).
  { unfold store_sequence. rewrite Hheader, Hattr, Hint. simpl. by rewrite insert_empty. }
  rewrite (parsed_fields_parsed _ _ root _ Hroot Hseq). simpl.
  destruct include_condition.
  - fold (condition_items root). rewrite foldl_store_condition_other by auto.
    rewrite foldl_store_item_other by done. apply lookup_singleton_eq.
  - rewrite foldl_store_item_other by done. apply lookup_singleton_eq.
Qed.

End ExtractMore.

(** The fault on [load] replaces the sample stored under [load]; the key
    [sequence] is the same with and without the flag. *)
Lemma parser_stores_condition_status_witness :
  let c := leaf (ns_tag "Fault") [("name", "load")] (Some "overload") in
  let before := [leaf (ns_tag "Normal") [("dataItemId", "servo")] None] in
  @fromstring condition_runtime condition_text = Ok condition_tree
  ∧ @store_sequence condition_runtime condition_tree ∅ = Ok {["sequence" := VInt 7]}
  ∧ condition_items condition_tree = before ++ c :: []
  ∧ @parsed_fields condition_runtime condition_text true !! "load" = Some (VStr "Fault")
  ∧ @parsed_fields condition_runtime condition_text false !! "load" = Some (VInt 7)
  ∧ @parsed_fields condition_runtime condition_text true !! "sequence"
    = @parsed_fields condition_runtime condition_text false !! "sequence".
Proof.
  intros c before.
  assert (H1 : @fromstring condition_runtime condition_text = Ok condition_tree)
    by by_evaluation.
  assert (H2 : @store_sequence condition_runtime condition_tree ∅
               = Ok {["sequence" := VInt 7]}) by by_evaluation.
  assert (H3 : condition_items condition_tree = before ++ c :: []) by by_evaluation.
  split; [exact H1|]. split; [exact H2|]. split; [exact H3|].
  destruct (parser_stores_condition_status (H:=condition_runtime) condition_text
              condition_tree _ before c [] H1 H2 H3 (Forall_nil_2 _)) as [Hc Hsame].
  split; [exact Hc|]. split; [by_evaluation|].
  apply Hsame. rewrite H3.
  repeat (apply Forall_cons_2; [by_evaluation|]). apply Forall_nil_2.
Defined.

(** The key [Xpos] of the example document is the key of its first
    sample. *)
Lemma parser_keys_come_from_the_document_witness :
  is_Some (@parsed_fields example_runtime (snapshot_text "101") false !! "Xpos")
  ∧ ("Xpos" = "sequence"
     ∨ ∃ root el,
         @fromstring example_runtime (snapshot_text "101") = Ok root
         ∧ field_key el = "Xpos"
         ∧ (el ∈ data_items root ∨ (false = true ∧ el ∈ condition_items root))).
Proof.
  assert (H1 : is_Some (@parsed_fields example_runtime (snapshot_text "101") false !! "Xpos")).
  { exists (VFloat 12.5%float). by_evaluation. }
  split; [exact H1|].
  exact (parser_keys_come_from_the_document (H:=example_runtime)
           (snapshot_text "101") false "Xpos" H1).
Defined.

Lemma parser_exposes_header_sequence_witness :
  let root := snapshot_tree "101" in
  let header := leaf (ns_tag "Header") [("lastSequence", "101")] None in
  @fromstring example_runtime (snapshot_text "101") = Ok root
  ∧ find root (q root "Header") = Some header
  ∧ attrib header !! "lastSequence" = Some "101"
  ∧ @py_int example_runtime "101" = Some 101
  ∧ Forall (λ e, field_key e ≠ "sequence") (data_items root)
  ∧ @parsed_fields example_runtime (snapshot_text "101") false !! "sequence"
    = Some (VInt 101).
Proof.
  intros root header.
  assert (H1 : @fromstring example_runtime (snapshot_text "101") = Ok root) by by_evaluation.
  assert (H2 : find root (q root "Header") = Some header) by by_evaluation.
  assert (H3 : attrib header !! "lastSequence" = Some "101") by by_evaluation.
  assert (H4 : @py_int example_runtime "101" = Some 101) by by_evaluation.
  assert (H5 : Forall (λ e, field_key e ≠ "sequence") (data_items root)).
  { repeat (apply Forall_cons_2; [by_evaluation|]). apply Forall_nil_2. }
  repeat (split; [assumption|]).
  apply (parser_exposes_header_sequence (H:=example_runtime) (snapshot_text "101") false
           root header "101" 101 H1 H2 H3 H4 H5).
  discriminate.
Defined.

(** ** Namespaces and local names *)

Section TagFacts.

Lemma append_cons a s t : String a s +:+ t = String a (s +:+ t).
Proof. reflexivity. Qed.

Lemma append_nil_r s : s +:+ "" = s.
Proof. induction s as [|a s IH]; [done|]. by rewrite append_cons, IH. Qed.

Lemma append_assoc s1 s2 s3 : (s1 +:+ s2) +:+ s3 = s1 +:+ (s2 +:+ s3).
Proof. induction s1 as [|a s1 IH]; [done|]. by rewrite !append_cons, IH. Qed.

Lemma rev_app_acc s : ∀ acc, String.rev_app s acc = String.rev s +:+ acc.
Proof.
  induction s as [|a s IH]; intros acc; [done|].
  unfold String.rev. simpl. rewrite (IH (String a acc)), (IH (String a "")).
  by rewrite append_assoc.
Qed.

Lemma rev_cons a s : String.rev (String a s) = String.rev s +:+ String a "".
Proof. unfold String.rev. simpl. by rewrite rev_app_acc. Qed.

Lemma rev_append s1 s2 : String.rev (s1 +:+ s2) = String.rev s2 +:+ String.rev s1.
Proof.
  induction s1 as [|a s1 IH].
  - by rewrite append_nil_r.
  - by rewrite append_cons, !rev_cons, IH, append_assoc.
Qed.

Lemma rev_involutive s : String.rev (String.rev s) = s.
Proof.
  induction s as [|a s IH]; [done|].
  by rewrite rev_cons, rev_append, IH.
Qed.

Lemma lacks_append c s1 s2 : lacks c (s1 +:+ s2) = lacks c s1 && lacks c s2.
Proof.
  induction s1 as [|a s1 IH]; [done|].
  rewrite append_cons. simpl. by rewrite IH, andb_assoc.
Qed.

Lemma lacks_rev c s : lacks c (String.rev s) = lacks c s.
Proof.
  induction s as [|a s IH]; [done|].
  rewrite rev_cons, lacks_append, IH. simpl. by rewrite andb_true_r, andb_comm.
Qed.

Lemma split_first_lacks c s : lacks c s = true → split_first c s = s.
Proof.
  induction s as [|a s IH]; simpl; [done|].
  intros [Ha Hs]%andb_prop. apply negb_true_iff in Ha. rewrite Ha. by rewrite IH.
Qed.

Lemma split_first_append c s1 s2 :
  lacks c s1 = true → split_first c (s1 +:+ String c s2) = s1.
Proof.
  induction s1 as [|a s1 IH].
  - intros _. change ("" +:+ String c s2) with (String c s2). simpl.
    by rewrite bool_decide_eq_true_2.
  - simpl lacks. intros [Ha Hs]%andb_prop. apply negb_true_iff in Ha.
    rewrite append_cons. simpl split_first. rewrite Ha. by rewrite IH.
Qed.

Lemma lstrip_lacks c s :
  lacks c s = true → lstrip_with (λ a, bool_decide (a = c)) s = s.
Proof.
  destruct s as [|a s]; simpl; [done|].
  intros [Ha _]%andb_prop. apply negb_true_iff in Ha. by rewrite Ha.
Qed.

Lemma split_last_append c s1 s2 :
  lacks c s2 = true → split_last c (s1 +:+ String c s2) = s2.
Proof.
  intros Hs. unfold split_last.
  rewrite rev_append, rev_cons, append_assoc.
  change (String c "" +:+ String.rev s1) with (String c (String.rev s1)).
  rewrite split_first_append by (by rewrite lacks_rev).
  apply rev_involutive.
Qed.

Lemma split_last_lacks c s : lacks c s = true → split_last c s = s.
Proof.
  intros Hs. unfold split_last.
  rewrite split_first_lacks by (by rewrite lacks_rev). apply rev_involutive.
Qed.

(** X13. The namespace of the root is used for every lookup: for a root
    tag [{uri}local] whose [uri] contains no brace, the tag looked up for
    [t] is [{uri}t]; for a root tag that does not start with a brace it is
    [t] itself. *)
Theorem lookups_use_the_root_namespace uri local attrs txt kids t :
  lacks "{" uri = true →
  lacks "}" uri = true →
  q (Elem ("{" +:+ uri +:+ "}" +:+ local) attrs txt kids) t = "{" +:+ uri +:+ "}" +:+ t
  ∧ ∀ root, starts_with_brace (tag root) = false → q root t = t.
Proof.
  intros Hopen Hclose. split.
  - assert (Hsplit : split_first "}" (String "{" (uri +:+ String "}" local)) = String "{" uri).
    { simpl. f_equal. by apply split_first_append. }
    assert (Hstrip : strip_char "{" (String "{" uri) = uri).
    { unfold strip_char, strip_with. simpl lstrip_with.
      rewrite (lstrip_lacks "{" uri Hopen), lstrip_lacks by (by rewrite lacks_rev).
      apply rev_involutive. }
    unfold q. simpl tag.
    change ("{" +:+ uri +:+ "}" +:+ local) with (String "{" (uri +:+ String "}" local)).
    simpl starts_with_brace. by rewrite Hsplit, Hstrip.
  - intros root Hroot. unfold q. by rewrite Hroot.
Qed.

(** X14. An element without a usable [name] and [dataItemId] is stored
    under its local name: the part of its tag after the last closing brace,
    that is [local] for a tag [{uri}local], and the whole tag when it has
    no namespace. *)
Theorem field_key_is_the_local_name attrs txt kids :
  truthy (attrs !! "name") = None →
  truthy (attrs !! "dataItemId") = None →
  (∀ uri local, lacks "}" local = true →
     field_key (Elem ("{" +:+ uri +:+ "}" +:+ local) attrs txt kids) = local)
  ∧ (∀ t, lacks "}" t = true → field_key (Elem t attrs txt kids) = t).
Proof.
  intros Hname Hid. split.
  - intros uri local Hlocal. unfold field_key. simpl. rewrite Hname, Hid.
    replace ("{" +:+ uri +:+ "}" +:+ local) with (String "{" uri +:+ String "}" local)
      by reflexivity.
    by apply split_last_append.
  - intros t Ht. unfold field_key. simpl. rewrite Hname, Hid.
    by apply split_last_lacks.
Qed.

End TagFacts.

Lemma lookups_use_the_root_namespace_witness :
  let uri := "urn:mtconnect.org:MTConnectStreams:1.3" in
  lacks "{" uri = true
  ∧ lacks "}" uri = true
  ∧ q (Elem "{urn:mtconnect.org:MTConnectStreams:1.3}MTConnectStreams" ∅ None []) "Header"
    = "{urn:mtconnect.org:MTConnectStreams:1.3}Header".
Proof.
  intros uri.
  assert (H1 : lacks "{" uri = true) by reflexivity.
  assert (H2 : lacks "}" uri = true) by reflexivity.
  split; [exact H1|]. split; [exact H2|].
  exact (proj1 (lookups_use_the_root_namespace uri "MTConnectStreams" ∅ None [] "Header"
                  H1 H2)).
Defined.

Lemma field_key_is_the_local_name_witness :
  let attrs : gmap string string := {["name" := ""]} in
  truthy (attrs !! "name") = None
  ∧ truthy (attrs !! "dataItemId") = None
  ∧ lacks "}" "Execution" = true
  ∧ field_key (Elem "{urn:mtconnect.org:MTConnectStreams:1.3}Execution" attrs (Some "ACTIVE") [])
    = "Execution".
Proof.
  intros attrs.
  assert (H1 : truthy (attrs !! "name") = None) by by_evaluation.
  assert (H2 : truthy (attrs !! "dataItemId") = None) by by_evaluation.
  assert (H3 : lacks "}" "Execution" = true) by reflexivity.
  split; [exact H1|]. split; [exact H2|]. split; [exact H3|].
  exact (proj1 (field_key_is_the_local_name attrs (Some "ACTIVE") [] H1 H2)
           "urn:mtconnect.org:MTConnectStreams:1.3" "Execution" H3).
Defined.

(** ** More on the state file *)

Section StateMore.
Context `{Runtime}.

(** X15. [state_load] is all or nothing: when the state file is missing,
    cannot be read as JSON, does not hold an object, or holds an object one
    of whose values [int()] rejects, the globals are left exactly as they
    were; no entry of the file is loaded, not even the well-formed
    ones. *)
Theorem state_load_all_or_nothing st disk :
  state_file disk = Missing
  ∨ state_file disk = Unreadable
  ∨ (∃ doc, state_file disk = Document doc ∧ ∀ members, doc ≠ JObj members)
  ∨ (∃ members k v, state_file disk = Document (JObj members)
                    ∧ load_object members !! k = Some v
                    ∧ json_int v = None) →
  state_load st disk = st.
Proof.
  unfold state_load.
  intros [->|[->|[(doc & -> & Hdoc)|(members & k & v & -> & Hk & Hv)]]]; try done.
  - destruct doc; try done. by destruct (Hdoc members).
  - unfold int_table. rewrite bool_decide_eq_false_2; [done|].
    intros Hall. destruct (Hall k v Hk) as [n Hn]. congruence.
Qed.

(** X16. When the state file holds an object all of whose values [int()]
    accepts, [state_load] stores for each key of the file the integer of its
    value, keeps the entries of the other sources, and touches neither the
    buffer nor the delays. *)
Theorem state_load_updates_from_file st disk members :
  state_file disk = Document (JObj members) →
  (∀ k v, load_object members !! k = Some v → is_Some (json_int v)) →
  (∀ k, last_sequence (state_load st disk) !! k
        = match load_object members !! k with
          | Some v => VInt <$> json_int v
          | None => last_sequence st !! k
          end)
  ∧ buffer (state_load st disk) = buffer st
  ∧ per_source_backoff (state_load st disk) = per_source_backoff st.
Proof.
  intros Hfile Hall. unfold state_load. rewrite Hfile.
  unfold int_table. rewrite bool_decide_eq_true_2 by exact Hall. simpl.
  split; [|done]. intros k. rewrite lookup_union, lookup_fmap, lookup_omap.
  destruct (load_object members !! k) as [v|] eqn:Hk; simpl.
  - destruct (Hall k v Hk) as [n Hn]. rewrite Hn. simpl.
    by destruct (last_sequence st !! k).
  - by destruct (last_sequence st !! k).
Qed.

End StateMore.

(** The file [{"A": 42, "B": "soon"}]: nothing is loaded, not even [A]. *)
Lemma state_load_all_or_nothing_witness :
  let disk := disk_with_state (JObj [("A", JInt 42); ("B", JStr "soon")]) in
  let st := initial_recorder small_config in
  (∃ members k v, state_file disk = Document (JObj members)
                  ∧ load_object members !! k = Some v
                  ∧ @json_int example_runtime v = None)
  ∧ @state_load example_runtime st disk = st
  ∧ last_sequence (@state_load example_runtime st disk) !! "A" = None.
Proof.
  intros disk st.
  assert (H1 : ∃ members k v, state_file disk = Document (JObj members)
                              ∧ load_object members !! k = Some v
                              ∧ @json_int example_runtime v = None).
  { exists [("A", JInt 42); ("B", JStr "soon")], "B", (JStr "soon").
    split; [reflexivity|]. split; by_evaluation. }
  split; [exact H1|].
  assert (H2 : @state_load example_runtime st disk = st).
  { apply (state_load_all_or_nothing (H:=example_runtime)). right. right. right. exact H1. }
  split; [exact H2|]. rewrite H2. by_evaluation.
Defined.

(** A file with a repeated key, a float and a padded numeral, loaded over a
    table that knows the source [C]. *)
Lemma state_load_updates_from_file_witness :
  let members := [("A", JInt 42); ("B", JStr " 7 "); ("A", JFloat 43.5%float)] in
  let disk := disk_with_state (JObj members) in
  let st := recorder_with small_config {["C" := VInt 5]} in
  state_file disk = Document (JObj members)
  ∧ (∀ k v, load_object members !! k = Some v → is_Some (@json_int example_runtime v))
  ∧ last_sequence (@state_load example_runtime st disk) !! "A" = Some (VInt 43)
  ∧ last_sequence (@state_load example_runtime st disk) !! "B" = Some (VInt 7)
  ∧ last_sequence (@state_load example_runtime st disk) !! "C" = Some (VInt 5).
Proof.
  intros members disk st.
  assert (H1 : state_file disk = Document (JObj members)) by reflexivity.
  assert (H2 : ∀ k v, load_object members !! k = Some v
                      → is_Some (@json_int example_runtime v)).
  { intros k v Hk.
    assert (Hmap : load_object members
                   = {["A" := JFloat 43.5%float; "B" := JStr " 7 "]}) by by_evaluation.
    rewrite Hmap in Hk.
    destruct (decide (k = "A")) as [->|HA].
    - rewrite lookup_insert_eq in Hk. injection Hk as <-. exists 43. by_evaluation.
    - rewrite lookup_insert_ne in Hk by done.
      destruct (decide (k = "B")) as [->|HB].
      + rewrite lookup_singleton_eq in Hk. injection Hk as <-. exists 7. by_evaluation.
      + by rewrite lookup_singleton_ne in Hk. }
  split; [exact H1|]. split; [exact H2|].
  destruct (state_load_updates_from_file (H:=example_runtime) st disk members H1 H2)
    as [Hlook _].
  rewrite !Hlook. repeat split; by_evaluation.
Defined.

(** ** More on the write loop and the flush *)

Section WriteLoopFacts.
Context `{Runtime} (cfg : Config).

Lemma write_entries_stops env to_write : ∀ i k written disk,
  (∀ j, (j < k)%nat → makedirs_ok env (i + j) = true) →
  makedirs_ok env (i + k) = false →
  (k < length to_write)%nat →
  Forall is_sample to_write →
  ∃ disk',
    write_entries cfg env i to_write written disk = (Raise OSError, disk')
    ∧ ∀ p, lines_of disk' p
           = lines_of disk p
             ++ filter (λ e, entry_file cfg env e = Ok p)
                       (written_entries env i (take k to_write)).
Proof.
  induction to_write as [|entry rest IH]; intros i k written disk Hok Hfail Hk Hall;
    simpl in Hk; [lia|].
  inversion Hall as [|? ? (machine & ts & Hm & Ht) Hrest]; subst.
  destruct (entry_file_sample cfg env entry machine ts Hm Ht) as [Hdir Hfile].
  simpl write_entries. rewrite Hdir.
  destruct k as [|k].
  - rewrite Nat.add_0_r in Hfail. rewrite Hfail.
    exists disk. split; [done|]. intros p. simpl. by rewrite app_nil_r.
  - assert (Hi : makedirs_ok env i = true).
    { rewrite <- (Nat.add_0_r i). apply Hok. lia. }
    rewrite Hi.
    assert (Hok' : ∀ j, (j < k)%nat → makedirs_ok env (S i + j) = true).
    { intros j Hj. replace (S i + j)%nat with (i + S j)%nat by lia. apply Hok. lia. }
    assert (Hfail' : makedirs_ok env (S i + k) = false).
    { by replace (S i + k)%nat with (i + S k)%nat by lia. }
    assert (Hday : entry_day env entry = str_take 10 ts).
    { unfold entry_day, dict_get_default. by rewrite Ht. }
    rewrite Hday. simpl take. simpl written_entries.
    destruct (append_ok env i).
    + edestruct (IH (S i) k (written + 1)) as (disk' & Hrun & Hlines);
        [done|done|lia|done|].
      exists disk'. split; [exact Hrun|].
      intros p. rewrite Hlines, lines_of_append_line, lines_of_ensure_dir.
      rewrite filter_cons, Hfile.
      destruct (decide (path_join (path_join (DATA_DIR cfg) machine)
                          (str_take 10 ts +:+ ".jsonl") = p)) as [->|Hne].
      * rewrite decide_True by done. by rewrite <- app_assoc.
      * rewrite decide_False by congruence. done.
    + edestruct (IH (S i) k written) as (disk' & Hrun & Hlines);
        [done|done|lia|done|].
      exists disk'. split; [exact Hrun|].
      intros p. by rewrite Hlines, lines_of_ensure_dir.
Qed.

(** X18. [os.makedirs] is called outside the [try] of the write loop: when
    it fails for the entry at position [k], after succeeding for the
    entries before, lines 192-216 raise [OSError]; the entries before
    position [k] were handled as usual, the entry at [k] and all entries
    after it are written nowhere, and the state file is not touched. *)
Theorem write_loop_stops_at_failed_makedirs env to_write st disk k :
  (∀ j, (j < k)%nat → makedirs_ok env j = true) →
  makedirs_ok env k = false →
  (k < length to_write)%nat →
  Forall is_sample to_write →
  ∃ disk',
    write_and_persist cfg env to_write st disk = (Raise OSError, st, disk')
    ∧ (∀ p, lines_of disk' p
            = lines_of disk p
              ++ filter (λ e, entry_file cfg env e = Ok p)
                        (written_entries env 0 (take k to_write)))
    ∧ state_file disk' = state_file disk.
Proof.
  intros Hok Hfail Hk Hall.
  destruct (write_entries_stops env to_write 0 k 0 disk Hok Hfail Hk Hall)
    as (disk' & Hrun & Hlines).
  exists disk'. unfold write_and_persist. rewrite Hrun. split; [done|].
  split; [done|].
  pose proof (write_entries_state_file cfg env to_write 0 0 disk) as Hsf.
  by rewrite Hrun in Hsf.
Qed.

Lemma write_entries_append_only env to_write : ∀ i written disk p,
  lines_of disk p `prefix_of` lines_of (write_entries cfg env i to_write written disk).2 p
  ∧ dirs disk ⊆ dirs (write_entries cfg env i to_write written disk).2.
Proof.
  induction to_write as [|entry rest IH]; intros i written disk p; simpl; [done|].
  destruct (entry_dir cfg entry) as [dir_path|e]; [|done].
  destruct (makedirs_ok env i); [|done].
  destruct (append_ok env i).
  - match goal with |- context [write_entries cfg env _ rest ?w ?d] =>
      destruct (IH (S i) w d p) as [Hpre Hdirs] end.
    split.
    + etrans; [|exact Hpre]. rewrite lines_of_append_line, lines_of_ensure_dir.
      case_decide; [by apply prefix_app_r|done].
    + etrans; [|exact Hdirs]. simpl. apply union_subseteq_r.
  - match goal with |- context [write_entries cfg env _ rest ?w ?d] =>
      destruct (IH (S i) w d p) as [Hpre Hdirs] end.
    split; [done|]. etrans; [|exact Hdirs]. simpl. apply union_subseteq_r.
Qed.

(** X19. Log files are append-only: whatever the entries are and whatever
    fails, lines 192-216 leave the lines a log file had as a prefix of the
    lines it has afterwards, and remove no directory. *)
Theorem write_loop_is_append_only env to_write st disk p :
  lines_of disk p `prefix_of` lines_of (write_and_persist cfg env to_write st disk).2 p
  ∧ dirs disk ⊆ dirs (write_and_persist cfg env to_write st disk).2.
Proof.
  unfold write_and_persist.
  pose proof (write_entries_append_only env to_write 0 0 disk p) as [Hpre Hdirs].
  destruct (write_entries cfg env 0 to_write 0 disk) as [[written|e] disk1]; simpl in *.
  - destruct (written =? 0); simpl; [done|].
    rewrite lines_of_state_save. split; [done|].
    unfold state_save. by destruct (state_write_ok env).
  - done.
Qed.

(** X20. [flush_buffer_to_disk] never raises, always leaves the buffer
    empty, and never changes a log file, a directory or the state file:
    the list it writes from is the buffer it has emptied (line 190).  The
    table of sequences and the delays are untouched, and a second flush
    changes nothing more. *)
Theorem flush_never_writes env st disk :
  ∃ st',
    flush_buffer_to_disk cfg env st disk = (Ok (), st', disk)
    ∧ buffer st' = []
    ∧ last_sequence st' = last_sequence st
    ∧ per_source_backoff st' = per_source_backoff st
    ∧ ∀ env', flush_buffer_to_disk cfg env' st' disk = (Ok (), st', disk).
Proof.
  exists (with_buffer [] st). rewrite flush_buffer_to_disk_aliased.
  split; [done|]. split; [done|]. split; [done|]. split; [done|].
  intros env'. by rewrite flush_buffer_to_disk_aliased.
Qed.

Lemma poll_many_samples polls : ∀ st st' evs,
  Forall is_sample (buffer st) →
  poll_many cfg polls st = Ok (st', evs) →
  Forall is_sample (buffer st').
Proof.
  induction polls as [|[[ts name] r] rest IH]; intros st st' evs Hall; simpl.
  - by intros [= <- <-].
  - destruct (poll_source cfg ts name r st) as [[st1 evs1]|] eqn:Hstep; simpl; [|done].
    destruct (poll_many cfg rest st1) as [[st2 evs2]|] eqn:Hrest; simpl; [|done].
    intros [= <- <-]. eapply IH; [|done].
    destruct (poll_source_cases cfg _ _ _ _ _ _ Hstep)
      as [(e & cur & -> & Hcur & -> & ->)|[(r_text & -> & _ & -> & ->)|(r_text & -> & _ & Hrec)]];
      [done..|].
    replace st1 with (st1, evs1).1 by done. rewrite Hrec.
    by apply record_parsed_samples.
Qed.

(** X21. What the fetch loop buffers, the write loop can write: for the
    buffer reached from the initial globals by any run of iterations,
    lines 192-216 (run on those entries) return without raising whenever
    every [os.makedirs] succeeds; no entry makes [os.path.join] or the
    slice of the timestamp fail. *)
Theorem polled_samples_are_writable env polls st evs disk :
  poll_many cfg polls (initial_recorder cfg) = Ok (st, evs) →
  (∀ j, (j < length (buffer st))%nat → makedirs_ok env j = true) →
  ∃ disk',
    write_and_persist cfg env (buffer st) st disk = (Ok (), st, disk')
    ∧ ∀ p, lines_of disk' p
           = lines_of disk p
             ++ filter (λ e, entry_file cfg env e = Ok p)
                       (written_entries env 0 (buffer st)).
Proof.
  intros Hrun Hdirs.
  assert (Hall : Forall is_sample (buffer st)).
  { eapply poll_many_samples; [|exact Hrun]. apply Forall_nil_2. }
  destruct (write_entries_spec cfg env (buffer st) 0 0 disk Hdirs Hall)
    as (disk1 & Hw & Hlines).
  unfold write_and_persist. rewrite Hw.
  destruct (_ =? 0); eexists; (split; [reflexivity|]); intros p;
    rewrite ?lines_of_state_save; apply Hlines.
Qed.

End WriteLoopFacts.

Lemma two_samples_are_samples : Forall is_sample two_samples.
Proof.
  apply Forall_cons_2; [|apply Forall_cons_2; [|apply Forall_nil_2]].
  - exists "QuickTurn", "2024-05-17T09:30:00.123456+00:00". split; by_evaluation.
  - exists "VTC", "2024-05-17T09:30:00.123456+00:00". split; by_evaluation.
Defined.

Lemma makedirs_always_ok no_append j : makedirs_ok (failing_env [] no_append) j = true.
Proof. apply bool_decide_eq_true_2, not_elem_of_nil. Defined.

(** Two samples, the append of the first fails: the second is in its file,
    the first in none, and the state file is written. *)
Lemma write_and_persist_spec_witness :
  let env := failing_env [] [0%nat] in
  let st := recorder_holding [] in
  (∀ j, (j < length two_samples)%nat → makedirs_ok env j = true)
  ∧ Forall is_sample two_samples
  ∧ ∃ disk',
      @write_and_persist example_runtime recorder_config env two_samples st empty_disk
      = (Ok (), st, disk')
      ∧ lines_of disk' "data/VTC/2024-05-17.jsonl" = [sample_of "VTC" 7]
      ∧ lines_of disk' "data/QuickTurn/2024-05-17.jsonl" = []
      ∧ state_file disk' = Document (dump_table (last_sequence st)).
Proof.
  intros env st.
  assert (H1 : ∀ j, (j < length two_samples)%nat → makedirs_ok env j = true)
    by (intros j _; apply makedirs_always_ok).
  split; [exact H1|]. split; [exact two_samples_are_samples|].
  destruct (write_and_persist_spec (H:=example_runtime) recorder_config env two_samples
              st empty_disk H1 two_samples_are_samples)
    as (disk' & Hrun & Hlines & Hsaved & _).
  exists disk'. split; [exact Hrun|].
  split; [rewrite Hlines; by_evaluation|]. split; [rewrite Hlines; by_evaluation|].
  apply Hsaved; [|reflexivity]. exists 1%nat. split; [simpl; lia|reflexivity].
Defined.

(** Two samples, the directory of the second cannot be made: the first is
    in its file, the loop raises, the second is in none. *)
Lemma write_loop_stops_at_failed_makedirs_witness :
  let env := failing_env [1%nat] [] in
  let st := recorder_holding [] in
  (∀ j, (j < 1)%nat → makedirs_ok env j = true)
  ∧ makedirs_ok env 1 = false
  ∧ (1 < length two_samples)%nat
  ∧ Forall is_sample two_samples
  ∧ ∃ disk',
      @write_and_persist example_runtime recorder_config env two_samples st empty_disk
      = (Raise OSError, st, disk')
      ∧ lines_of disk' "data/QuickTurn/2024-05-17.jsonl" = [sample_of "QuickTurn" 101]
      ∧ lines_of disk' "data/VTC/2024-05-17.jsonl" = []
      ∧ state_file disk' = Missing.
Proof.
  intros env st.
  assert (H1 : ∀ j, (j < 1)%nat → makedirs_ok env j = true).
  { intros j Hj. assert (j = 0%nat) as -> by lia. reflexivity. }
  assert (H2 : makedirs_ok env 1 = false) by reflexivity.
  assert (H3 : (1 < length two_samples)%nat) by (simpl; lia).
  split; [exact H1|]. split; [exact H2|]. split; [exact H3|].
  split; [exact two_samples_are_samples|].
  destruct (write_loop_stops_at_failed_makedirs (H:=example_runtime) recorder_config env
              two_samples st empty_disk 1 H1 H2 H3 two_samples_are_samples)
    as (disk' & Hrun & Hlines & Hsf).
  exists disk'. split; [exact Hrun|].
  split; [rewrite Hlines; by_evaluation|]. split; [rewrite Hlines; by_evaluation|].
  by rewrite Hsf.
Defined.

(** A document and a heartbeat polled from the initial globals, then
    written with a healthy disk. *)
Lemma polled_samples_are_writable_witness :
  let env := failing_env [] [] in
  let polls := [ ("2024-05-17T09:30:00+00:00", "QuickTurn", Fetched (snapshot_text "101"));
                 ("2024-05-17T09:30:00+00:00", "VTC", Fetched truncated_text) ] in
  ∃ st evs disk',
    @poll_many example_runtime recorder_config polls (initial_recorder recorder_config)
    = Ok (st, evs)
    ∧ (∀ j, (j < length (buffer st))%nat → makedirs_ok env j = true)
    ∧ @write_and_persist example_runtime recorder_config env (buffer st) st empty_disk
      = (Ok (), st, disk')
    ∧ length (lines_of disk' "data/QuickTurn/2024-05-17.jsonl") = 1%nat
    ∧ length (lines_of disk' "data/VTC/2024-05-17.jsonl") = 1%nat.
Proof.
  intros env polls.
  destruct (@poll_many example_runtime recorder_config polls
              (initial_recorder recorder_config)) as [[st evs]|e] eqn:Hrun;
    [|vm_compute in Hrun; discriminate].
  assert (H1 : ∀ j, (j < length (buffer st))%nat → makedirs_ok env j = true)
    by (intros j _; apply makedirs_always_ok).
  destruct (polled_samples_are_writable (H:=example_runtime) recorder_config env polls
              st evs empty_disk Hrun H1) as (disk' & Hw & Hlines).
  exists st, evs, disk'. split; [reflexivity|]. split; [exact H1|]. split; [exact Hw|].
  rewrite !Hlines. vm_compute in Hrun. injection Hrun as <- _.
  split; by_evaluation.
Defined.

(** ** A whole cycle over the sources *)

Section CycleFacts.
Context `{Runtime} (cfg : Config).

Lemma poll_many_other_sources polls name : ∀ st st' evs,
  Forall (λ p, p.1.2 ≠ name) polls →
  poll_many cfg polls st = Ok (st', evs) →
  last_sequence st' !! name = last_sequence st !! name.
Proof.
  induction polls as [|[[ts n] r] rest IH]; intros st st' evs Hall; simpl.
  - by intros [= <- <-].
  - inversion Hall as [|? ? Hn Hrest]; subst. simpl in Hn.
    destruct (poll_source cfg ts n r st) as [[st1 evs1]|] eqn:Hstep; simpl; [|done].
    destruct (poll_many cfg rest st1) as [[st2 evs2]|] eqn:Hrest'; simpl; [|done].
    intros [= <- <-]. rewrite (IH _ _ _ Hrest Hrest').
    destruct (poll_source_cases cfg _ _ _ _ _ _ Hstep)
      as [(e & cur & -> & Hcur & -> & ->)|[(r_text & -> & _ & -> & ->)|(r_text & -> & _ & Hrec)]];
      [done..|].
    replace st1 with (st1, evs1).1 by done. rewrite Hrec.
    apply record_parsed_other. congruence.
Qed.

(** The table entry of a source after an iteration on a snapshot with an
    integer sequence, when the entry was missing or an integer. *)
Lemma record_parsed_integer_sequence ts name parsed st (s : Z) :
  parsed !! "sequence" = Some (VInt s) →
  (∀ v, last_sequence st !! name = Some v → ∃ n, v = VInt n) →
  last_sequence (record_parsed cfg ts name parsed st).1 !! name = Some (VInt s).
Proof.
  intros Hs Hint.
  destruct (py_ne (VInt s) (dict_get (last_sequence st) name)) eqn:Hne.
  - destruct (record_parsed_accept cfg ts name parsed st (VInt s) Hs eq_refl Hne)
      as (kept & evs & _ & ->). simpl. apply lookup_insert_eq.
  - rewrite (record_parsed_reject cfg ts name parsed st (VInt s) Hs eq_refl Hne). simpl.
    unfold dict_get, py_ne in Hne.
    destruct (last_sequence st !! name) as [v|] eqn:Hv; simpl in Hne; [|done].
    destruct (Hint v eq_refl) as [n ->]. simpl in Hne.
    apply negb_false_iff, Z.eqb_eq in Hne. by subst.
Qed.

(** X22. In one cycle over sources with distinct names, started from
    globals that have a delay for every source, a source that answers with
    a snapshot whose sequence is the integer [s] ends the cycle with [s] as
    its last accepted sequence, whatever the other sources did: their
    failures, sleeps and samples do not reach its entry. *)
Theorem cycle_records_each_answering_source ts fetch st name url r_text (s : Z) :
  NoDup (source_names cfg) →
  (∀ n, n ∈ source_names cfg → is_Some (per_source_backoff st !! n)) →
  (name, url) ∈ SOURCES cfg →
  fetch name url = Fetched r_text →
  strip r_text ≠ "" →
  parsed_fields (strip r_text) (INCLUDE_CONDITION cfg) !! "sequence" = Some (VInt s) →
  (∀ v, last_sequence st !! name = Some v → ∃ n, v = VInt n) →
  ∃ st' evs,
    poll_cycle cfg ts fetch st = Ok (st', evs)
    ∧ last_sequence st' !! name = Some (VInt s).
Proof.
  intros Hnodup Hdelays Hin Hfetch Hbody Hs Hint. unfold poll_cycle.
  destruct (poll_many_returns cfg ((λ s, (ts, s.1, fetch s.1 s.2)) <$> SOURCES cfg) st)
    as (st' & evs & Hrun).
  { apply Forall_fmap, Forall_forall. intros [n u] Hn. simpl. apply Hdelays.
    apply list_elem_of_fmap. by exists (n, u). }
  exists st', evs. split; [exact Hrun|].
  apply list_elem_of_split in Hin as (l1 & l2 & Hsplit).
  unfold source_names in Hnodup. rewrite Hsplit in Hnodup, Hrun.
  rewrite fmap_app, fmap_cons in Hnodup. simpl in Hnodup.
  apply NoDup_app in Hnodup as (_ & Hl1 & [Hl2 _]%NoDup_cons).
  rewrite fmap_app, fmap_cons, poll_many_app in Hrun. simpl in Hrun.
  destruct (poll_many cfg ((λ s, (ts, s.1, fetch s.1 s.2)) <$> l1) st)
    as [[st1 evs1]|] eqn:H1; simpl in Hrun; [|done].
  rewrite Hfetch, poll_source_fetched in Hrun by done. simpl in Hrun.
  destruct (record_parsed cfg ts name _ st1) as [st2 evs2] eqn:Hrec. simpl in Hrun.
  destruct (poll_many cfg ((λ s, (ts, s.1, fetch s.1 s.2)) <$> l2) st2)
    as [[st3 evs3]|] eqn:H3; simpl in Hrun; [|done].
  injection Hrun as <- _.
  assert (Hbefore : last_sequence st1 !! name = last_sequence st !! name).
  { eapply poll_many_other_sources; [|exact H1].
    apply Forall_fmap, Forall_forall. intros [n u] Hn. simpl. intros ->.
    apply (Hl1 name); [|apply list_elem_of_here].
    apply list_elem_of_fmap. by exists (name, u). }
  assert (Hafter : last_sequence st3 !! name = last_sequence st2 !! name).
  { eapply poll_many_other_sources; [|exact H3].
    apply Forall_fmap, Forall_forall. intros [n u] Hn. simpl. intros ->.
    apply Hl2. apply list_elem_of_fmap. by exists (name, u). }
  rewrite Hafter. replace st2 with (st2, evs2).1 by done. rewrite <- Hrec.
  apply record_parsed_integer_sequence; [done|]. by rewrite Hbefore.
Qed.

End CycleFacts.

(** A cycle in which IG500 answers with sequence 101 and the two other
    sources fail. *)
Lemma cycle_records_each_answering_source_witness :
  let st := initial_recorder recorder_config in
  NoDup (source_names recorder_config)
  ∧ ("IG500", "http://192.168.200.249:5000/current") ∈ SOURCES recorder_config
  ∧ example_fetch "IG500" "http://192.168.200.249:5000/current" = Fetched (snapshot_text "101")
  ∧ ∃ st' evs,
      @poll_cycle example_runtime recorder_config "2024-05-17T09:30:00+00:00"
        example_fetch st = Ok (st', evs)
      ∧ last_sequence st' !! "IG500" = Some (VInt 101).
Proof.
  intros st.
  assert (H1 : NoDup (source_names recorder_config)).
  { apply (bool_decide_unpack _). vm_compute. exact I. }
  assert (H2 : ∀ n, n ∈ source_names recorder_config
                    → is_Some (per_source_backoff st !! n)).
  { intros n Hn. by apply initial_backoff_lookup. }
  assert (H3 : ("IG500", "http://192.168.200.249:5000/current") ∈ SOURCES recorder_config).
  { simpl. apply list_elem_of_further, list_elem_of_here. }
  assert (H4 : example_fetch "IG500" "http://192.168.200.249:5000/current"
               = Fetched (snapshot_text "101")) by reflexivity.
  assert (H5 : strip (snapshot_text "101") ≠ "") by by_evaluation.
  assert (H6 : @parsed_fields example_runtime (strip (snapshot_text "101"))
                 (INCLUDE_CONDITION recorder_config) !! "sequence" = Some (VInt 101))
    by by_evaluation.
  assert (H7 : ∀ v, last_sequence st !! "IG500" = Some v → ∃ n, v = VInt n).
  { intros v Hv. unfold st in Hv. simpl in Hv. by rewrite lookup_empty in Hv. }
  split; [exact H1|]. split; [exact H3|]. split; [exact H4|].
  exact (cycle_records_each_answering_source (H:=example_runtime) recorder_config
           "2024-05-17T09:30:00+00:00" example_fetch st "IG500"
           "http://192.168.200.249:5000/current" (snapshot_text "101") 101
           H1 H2 H3 H4 H5 H6 H7).
Defined.
